(** * Verification of the Social-LSTM training driver (scripts/train.py)

    The development embeds [scripts/train.py] -- the [logger] function and
    the body of [main] -- as executable Rocq definitions over an explicit
    model of the Python values, the exceptions, the directory tree and the
    calls into the deep-learning runtime.  The collaborators of the script
    whose code is not part of the sources at hand ([utils.DataLoader],
    [utils.TrajectoriesDataset], [coordinates_helpers], [pooling_layers])
    are modelled from the written specification; every such definition says
    so in its documentation. *)

From Stdlib Require Import ZArith List Bool Ascii String Lia.
From stdpp Require Import gmap strings list.

Local Open Scope string_scope.
Local Open Scope Z_scope.

(** ** Python values and exceptions *)

(** The values a YAML parameter file can hold and the script inspects.
    Floating-point parameters play no part in the control flow of the
    script and are left out. *)
#[warnings="-register-all"] Inductive value : Type :=
  | VNone
  | VBool (b : bool)
  | VInt (n : Z)
  | VStr (s : string)
  | VList (l : list value).

(** The exceptions that can end a run. [ConfigError] and [EndOfEpoch] are
    the conditions named by the specification; [FailedPrecondition] is
    the error of reading from a handle that was never initialised;
    [ValueError] is raised by the logging library for an unknown level
    name and by the saver for a target without a parent directory;
    [TypeError] is also what a session raises when asked to run the
    operations of a saver made for another graph. *)
Inductive exn : Type :=
  | AttributeError (attr : string)
  | UnboundLocalError (var : string)
  | TypeError
  | ValueError
  | ZeroDivisionError
  | FileExistsError (path : string)
  | FileNotFoundError (path : string)
  | FailedPrecondition
  | ConfigError
  | EndOfEpoch.

Inductive result (A : Type) : Type :=
  | Ok (a : A)
  | Raise (e : exn).
Arguments Ok {A} a.
Arguments Raise {A} e.

(** Python truthiness, as used by [if hparams.modelFolder:]. *)
Definition truthy (v : value) : bool :=
  match v with
  | VNone => false
  | VBool b => b
  | VInt n => negb (n =? 0)
  | VStr s => negb (String.eqb s "")
  | VList l => match l with [] => false | _ => true end
  end.

(** [v is not None]. *)
Definition is_not_none (v : value) : bool :=
  match v with VNone => false | _ => true end.

(** [v == "s"] for a string literal. *)
Definition eq_str (v : value) (s : string) : bool :=
  match v with VStr s' => String.eqb s' s | _ => false end.

(** [isinstance(v, list)]. *)
Definition is_list (v : value) : bool :=
  match v with VList _ => true | _ => false end.

(** The binary [+] of Python on the values of the model: integer
    addition ([bool] is a subclass of [int]), concatenation of strings and
    of lists, [TypeError] otherwise. *)
Definition int_of_bool (b : bool) : Z := if b then 1 else 0.

Definition py_add (a b : value) : result value :=
  match a, b with
  | VInt m, VInt n => Ok (VInt (m + n))
  | VInt m, VBool n => Ok (VInt (m + int_of_bool n))
  | VBool m, VInt n => Ok (VInt (int_of_bool m + n))
  | VBool m, VBool n => Ok (VInt (int_of_bool m + int_of_bool n))
  | VStr s, VStr t => Ok (VStr (s ++ t))
  | VList l, VList k => Ok (VList (l ++ k))
  | _, _ => Raise TypeError
  end.

(** [str.upper] on ASCII letters. *)
Definition upper_ascii (c : ascii) : ascii :=
  let n := nat_of_ascii c in
  if ((97 <=? n) && (n <=? 122))%nat then ascii_of_nat (n - 32) else c.

Fixpoint upper (s : string) : string :=
  match s with
  | EmptyString => EmptyString
  | String c s' => String (upper_ascii c) (upper s')
  end.

(** [v.upper()]: only strings have the method. *)
Definition py_upper (v : value) : result string :=
  match v with
  | VStr s => Ok (upper s)
  | _ => Raise (AttributeError "upper")
  end.

(** ** Paths ([os.path], POSIX flavour) *)

Definition sep : ascii := "/"%char.

Definition starts_with_sep (s : string) : bool :=
  match s with
  | String c _ => Ascii.eqb c sep
  | EmptyString => false
  end.

Fixpoint ends_with_sep (s : string) : bool :=
  match s with
  | EmptyString => false
  | String c EmptyString => Ascii.eqb c sep
  | String _ s' => ends_with_sep s'
  end.

(** [os.path.join(a, b)]: an absolute [b] discards [a]; otherwise [b] is
    appended, with a separator unless [a] is empty or already ends with
    one. *)
Definition path_join (a b : string) : string :=
  if starts_with_sep b then b
  else if String.eqb a "" || ends_with_sep a then a ++ b
  else a ++ "/" ++ b.

(** The proper ancestors of a path: the non-empty prefixes that end just
    before a separator. [os.makedirs] creates them along with the leaf. *)
Fixpoint ancestors_from (pre s : string) : list string :=
  match s with
  | EmptyString => []
  | String c s' =>
      let rest := ancestors_from (pre ++ String c EmptyString) s' in
      if Ascii.eqb c sep && negb (String.eqb pre "") then pre :: rest
      else rest
  end.

Definition ancestors (p : string) : list string := ancestors_from "" p.

Fixpoint has_sep (s : string) : bool :=
  match s with
  | EmptyString => false
  | String c s' => Ascii.eqb c sep || has_sep s'
  end.

(** The part of a path up to and including its last separator: the empty
    string when there is none. *)
Fixpoint head_of_path (s : string) : string :=
  match s with
  | EmptyString => EmptyString
  | String c s' =>
      if has_sep s' then String c (head_of_path s')
      else if Ascii.eqb c sep then String c EmptyString
      else EmptyString
  end.

(** [s.rstrip("/")]. *)
Fixpoint rstrip_sep (s : string) : string :=
  match s with
  | EmptyString => EmptyString
  | String c s' =>
      match rstrip_sep s' with
      | EmptyString =>
          if Ascii.eqb c sep then EmptyString else String c EmptyString
      | r => String c r
      end
  end.

(** [os.path.dirname]: the head of the path, without its trailing
    separators unless it consists of separators only. *)
Definition dirname (p : string) : string :=
  let head := head_of_path p in
  match rstrip_sep head with
  | EmptyString => head
  | stripped => stripped
  end.

(** ** Trajectory data *)

(** Modelled from the spec: the Frame of the TrajectoryRecord store
    ([utils], not among the sources). Section 3: a timestamp plus a set of
    [(agentId, x, y)] observations. Coordinates are exact numbers
    (fixed-point units). *)
Record Frame : Type := {
  timestamp : Z;
  observations : list (Z * (Z * Z))
}.

Definition agents_of (f : Frame) : list Z := map fst (observations f).

Fixpoint find_obs (a : Z) (obs : list (Z * (Z * Z))) : option (Z * Z) :=
  match obs with
  | [] => None
  | (b, p) :: rest => if b =? a then Some p else find_obs a rest
  end.

Definition present (a : Z) (f : Frame) : bool :=
  match find_obs a (observations f) with Some _ => true | None => false end.

(** Modelled from the spec: the order in which the Windower retains
    agents (section 4.2, first-seen agents retained): the ids of a list in
    order of first appearance, without repetition. *)
Fixpoint first_seen (l : list Z) : list Z :=
  match l with
  | [] => []
  | a :: l' => a :: filter (λ b, b ≠ a) (first_seen l')
  end.

(** Modelled from the spec: the Scene Window produced by the Windower
    ([utils.DataLoader], not among the sources). Section 4.2: the dataset
    it was cut from and the index of its first frame (its identifier and
    frame range), the frames it spans, the ordered slot-to-agent table and
    the per-frame presence flags. *)
Record Window : Type := {
  wdataset : nat;
  wstart : nat;
  wframes : list Frame;
  wslots : list Z;
  wpresence : list (list bool)
}.

(** ** Sequence Windower *)

(** Modelled from the spec: the window starts of the Sequence Windower
    of [utils.DataLoader], whose code is not among the sources. Section
    4.2: a window of [trajectory_size] consecutive frames starts at every
    [skip]-th frame index at which it still fits in the log. *)
Definition starts (n tsize skip : nat) : list nat :=
  filter (λ s, (s `mod` skip = 0 ∧ s + tsize ≤ n)%nat) (seq 0 n).

(** Modelled from the spec: one window of the Sequence Windower of
    [utils.DataLoader], not among the sources. Section 4.2: the agents
    present in at least one frame of the window are collected; when there
    are more than [maxNumPed], the first-seen ones are retained; the
    presence flags say for every frame which slots are observed. *)
Definition window_at (d : nat) (frames : list Frame) (tsize maxNumPed s : nat)
  : Window :=
  let fr := take tsize (drop s frames) in
  let slots := take maxNumPed (first_seen (concat (map agents_of fr))) in
  {| wdataset := d;
     wstart := s;
     wframes := fr;
     wslots := slots;
     wpresence := map (λ f, map (λ a, present a f) slots) fr |}.

(** Modelled from the spec: the exclusion rule of the Sequence Windower
    (section 4.2): a window in which the primary agent is present in
    fewer than 2 frames is excluded. The specification does not say which
    agent is the primary one; it is taken to be the agent of slot 0. *)
Definition primary_frames (w : Window) : nat :=
  match wslots w with
  | [] => 0%nat
  | a :: _ => length (filter (λ f, present a f = true) (wframes w))
  end.

Definition supervisable (w : Window) : Prop := (2 ≤ primary_frames w)%nat.

#[global] Instance supervisable_dec w : Decision (supervisable w).
Proof. unfold supervisable. apply _. Defined.

(** Modelled from the spec: the Sequence Windower of [utils.DataLoader],
    not among the sources (section 4.2): the windows of one dataset log,
    in the order of their start index. *)
Definition windower (d : nat) (frames : list Frame) (tsize maxNumPed skip : nat)
  : list Window :=
  filter supervisable
    (map (window_at d frames tsize maxNumPed) (starts (length frames) tsize skip)).

(** Modelled from the spec: the windows of several dataset logs
    (section 4.2, a sequence of Scene Windows per dataset), dataset after
    dataset. *)
Fixpoint windows_of (d : nat) (datasets : list (list Frame))
    (tsize maxNumPed skip : nat) : list Window :=
  match datasets with
  | [] => []
  | frames :: rest =>
      windower d frames tsize maxNumPed skip
        ++ windows_of (S d) rest tsize maxNumPed skip
  end.

(** ** Batch Assembler *)

(** Modelled from the spec: the materialisation step of
    [utils.TrajectoriesDataset] (section 4.3), not among the sources: one
    dense position tensor, padded with zero where the agent is absent, and
    one presence mask per window. *)
Definition position_tensor (w : Window) : list (list (Z * Z)) :=
  map (λ f, map (λ a, default (0, 0) (find_obs a (observations f))) (wslots w))
      (wframes w).

(** Modelled from the spec: the presence mask of a window (section 3),
    one flag per frame and slot. *)
Definition presence_mask (w : Window) : list (list bool) := wpresence w.

(** Modelled from the spec: an iteration handle of
    [utils.TrajectoriesDataset] (section 4.3), not among the sources. The
    handle walks over the windows of one loader; advancing past the last
    window raises [EndOfEpoch]; resetting re-establishes the first
    window. *)
Record handle : Type := {
  source : list Window;
  cursor : nat
}.

(** Modelled from the spec: the reset of a handle (section 4.3):
    it re-establishes the first window. *)
Definition reset (h : handle) : handle :=
  {| source := source h; cursor := 0 |}.

(** Modelled from the spec: one advance of a handle (section 4.3): the
    next window, or [EndOfEpoch] past the last one. *)
Definition advance (h : handle) : result Window * handle :=
  match source h !! cursor h with
  | Some w => (Ok w, {| source := source h; cursor := S (cursor h) |})
  | None => (Raise EndOfEpoch, h)
  end.

Inductive split : Type := Train | Val.

(** Modelled from the spec: the dataset pipeline of
    [utils.TrajectoriesDataset], not among the sources (section 4.3): two
    independent handles, and the one the model currently reads from. *)
Record pipeline : Type := {
  train_handle : handle;
  val_handle : handle;
  active : option split
}.

Definition empty_pipeline : pipeline :=
  {| train_handle := {| source := []; cursor := 0 |};
     val_handle := {| source := []; cursor := 0 |};
     active := None |}.

(** ** The world the script runs in *)

Inductive pooling_kind : Type :=
  | SocialPooling
  | OccupancyPooling
  | CombinedPooling (modules : list value).

(** The calls the script makes into its collaborators, in order.
    [logging.info] and [logging.debug] only print and leave no event. *)
Inductive event : Type :=
  | EMakedirs (path : string)
  | ERemoveHandlers
  | EFileHandler (path : string)
  | EStreamHandler
  | ESetLevel (level : string)
  | EDataLoader (datasets skip max_num_ped trajectory_size : value)
  | EEmptyDatasetWarning
  | ETrajectoriesDataset (prefetch_size : value)
  | EPooling (k : pooling_kind)
  | ESocialModel (pooling_module : option pooling_kind)
  | ESaver
  | EInitVariables
  | EInit (s : split)
  | ETrainStep (w : Window)
  | EEvalStep (w : Window)
  | ESave (path : string) (global_step : option Z)
  | EResetGraph.

(** The state threaded through a run: the directories that exist, the
    parsed dataset files, the iteration handles of the dataset pipeline
    and the calls made so far. *)
Record world : Type := {
  fs : gset string;
  files : gmap string (list Frame);
  pipe : pipeline;
  trace : list event
}.

Definition set_fs (f : gset string) (w : world) : world :=
  {| fs := f; files := files w; pipe := pipe w; trace := trace w |}.

Definition set_pipe (p : pipeline) (w : world) : world :=
  {| fs := fs w; files := files w; pipe := p; trace := trace w |}.

Definition log_event (e : event) (w : world) : world :=
  {| fs := fs w; files := files w; pipe := pipe w; trace := trace w ++ [e] |}.

(** The graph the script builds in. [tf.reset_default_graph] starts a new
    one: the graphs of a run are numbered by the resets made so far. *)
Fixpoint resets (evs : list event) : nat :=
  match evs with
  | [] => 0
  | EResetGraph :: rest => S (resets rest)
  | _ :: rest => resets rest
  end.

Definition graph_of (w : world) : nat := resets (trace w).

(** A computation either returns or raises; the world at the point of
    the exception is kept. The script has no [try]: an exception raised
    anywhere ends the run. *)
Definition M (A : Type) : Type := world → result A * world.

Definition ret {A} (a : A) : M A := λ w, (Ok a, w).

Definition raise {A} (e : exn) : M A := λ w, (Raise e, w).

Definition bind {A B} (c : M A) (k : A → M B) : M B :=
  λ w, match c w with
       | (Ok a, w') => k a w'
       | (Raise e, w') => (Raise e, w')
       end.

Notation "'let!' x ':=' c 'in' k" := (bind c (λ x, k))
  (at level 10, x name, c at level 100, k at level 200).
Notation "c '>>' k" := (bind c (λ _, k))
  (at level 90, right associativity).

Definition lift {A} (r : result A) : M A := λ w, (r, w).

Definition emit (e : event) : M unit := λ w, (Ok tt, log_event e w).

(** [for x in l: body(x)]. *)
Fixpoint for_each {A} (l : list A) (body : A → M unit) : M unit :=
  match l with
  | [] => ret tt
  | x :: l' => body x >> for_each l' body
  end.

(** Reading a local variable that no executed statement has assigned. *)
Definition read_local {A} (name : string) (v : option A) : M A :=
  match v with
  | Some a => ret a
  | None => raise (UnboundLocalError name)
  end.

(** [hparams.attr]. *)
Definition getattr (hparams : gmap string value) (attr : string) : M value :=
  match hparams !! attr with
  | Some v => ret v
  | None => raise (AttributeError attr)
  end.

(** [os.path.join] on values: both components must be strings. *)
Definition os_path_join (a b : value) : result string :=
  match a, b with
  | VStr a', VStr b' => Ok (path_join a' b')
  | _, _ => Raise TypeError
  end.

(** A directory exists. Paths are compared as written: two spellings of
    one directory (a trailing separator, [.], [..], a doubled separator)
    are two paths here. The empty path names nothing. *)
Definition is_dir (p : string) (w : world) : bool :=
  negb (String.eqb p "") && bool_decide (p ∈ fs w).

(** [os.path.exists]. *)
Definition os_path_exists (p : string) : M bool :=
  λ w, (Ok (is_dir p w), w).

(** [os.makedirs]: [FileNotFoundError] for the empty path,
    [FileExistsError] when the leaf exists; otherwise it creates the leaf
    and the missing ancestors. *)
Definition os_makedirs (p : string) : M unit :=
  λ w, if String.eqb p "" then (Raise (FileNotFoundError p), w)
       else if bool_decide (p ∈ fs w) then (Raise (FileExistsError p), w)
       else (Ok tt,
             log_event (EMakedirs p)
               (set_fs (fs w ∪ {[p]} ∪ list_to_set (ancestors p)) w)).

(** The directory a file is to be written in exists: it is the working
    directory (empty [dirname]), the root, or an existing directory. *)
Definition parent_exists (p : string) (w : world) : bool :=
  match dirname p with
  | EmptyString => true
  | d => match rstrip_sep d with
         | EmptyString => true
         | _ => bool_decide (d ∈ fs w)
         end
  end.

(** [logging.FileHandler(path)] opens the file at once:
    [FileNotFoundError] when its directory does not exist. *)
Definition file_handler (path : string) : M unit :=
  λ w, if parent_exists path w then (Ok tt, log_event (EFileHandler path) w)
       else (Raise (FileNotFoundError path), w).

(** The level names the logging library knows. *)
Definition known_level (level : string) : bool :=
  existsb (String.eqb level)
    ["CRITICAL"; "FATAL"; "ERROR"; "WARN"; "WARNING"; "INFO"; "DEBUG";
     "NOTSET"].

(** [logger.setLevel(level)] for a level given by name: [ValueError] for a
    name the library does not know. *)
Definition set_level (level : string) : M unit :=
  if known_level level then emit (ESetLevel level) else raise ValueError.

(** [tf.train.Saver()]: the saver adds its operations to the graph at
    hand and belongs to it. *)
Definition new_saver : M nat :=
  λ w, (Ok (graph_of w), log_event ESaver w).

(** [saver.save(sess, path, global_step)]. The session runs the save
    operation of the saver by name: [TypeError] when the saver was made
    for an earlier graph, the graph of the session having no such
    operation; [ValueError] when the parent directory of the target does
    not exist. *)
Definition saver_save (saver : nat) (path : string) (global_step : option Z)
  : M unit :=
  λ w, if negb (saver =? graph_of w)%nat then (Raise TypeError, w)
       else if parent_exists path w
            then (Ok tt, log_event (ESave path global_step) w)
            else (Raise ValueError, w).

(** [range(v)]: needs an integer; empty when it is not positive. *)
Definition py_range (v : value) : result (list Z) :=
  match v with
  | VInt n => Ok (map Z.of_nat (seq 0 (Z.to_nat n)))
  | VBool b => Ok (map Z.of_nat (seq 0 (Z.to_nat (int_of_bool b))))
  | _ => Raise TypeError
  end.

(** ** Collaborators of the script *)

(** Modelled from the spec: the loader object of [utils.DataLoader], not
    among the sources. Section 6: it hands the training loop the windows
    and a scalar sequence count, the number of steps of an epoch. *)
Record loader : Type := { windows : list Window }.

(** Modelled from the spec: [num_sequences] of a loader (section 6): the
    number of its windows. *)
Definition num_sequences (l : loader) : nat := length (windows l).

(** Modelled from the spec: the check of a size parameter of
    [utils.DataLoader] (section 7: a non-positive size is a
    [ConfigError]): the parameter as a number when it is a positive
    integer. *)
Definition as_positive (v : value) : option nat :=
  match v with
  | VInt n => if 0 <? n then Some (Z.to_nat n) else None
  | _ => None
  end.

(** Modelled from the spec: the TrajectoryRecord store of [utils], not
    among the sources (section 4.1): the parsed logs of the dataset files
    [names] under [dataPath]. The world holds the logs already parsed. *)
Fixpoint read_files (dataPath : string) (names : list value)
  : M (list (list Frame)) :=
  match names with
  | [] => ret []
  | VStr name :: rest =>
      let! frames := (λ w, match files w !! path_join dataPath name with
                           | Some fr => (Ok fr, w)
                           | None => (Raise (FileNotFoundError
                                               (path_join dataPath name)), w)
                           end) in
      let! others := read_files dataPath rest in
      ret (frames :: others)
  | _ :: _ => raise TypeError
  end.

(** Modelled from the spec: the same for the values found in the
    parameters, a path and a list of file names. *)
Definition read_datasets (dataPath datasets : value) : M (list (list Frame)) :=
  match dataPath, datasets with
  | VStr dp, VList names => read_files dp names
  | _, _ => raise TypeError
  end.

(** Modelled from the spec: the constructor [utils.DataLoader], not among
    the sources. Section 7: a size parameter that is not a positive
    integer is a [ConfigError], raised before any windowing; zero windows
    for the requested split is an [EmptyDatasetWarning], after which the
    loader is still constructed. The loader sees [obsLen + predLen] as
    [trajectory_size]; a stride that is not a positive integer is
    rejected in the same way. *)
Definition DataLoader
    (dataPath datasets delimiter skip max_num_ped trajectory_size : value)
  : M loader :=
  emit (EDataLoader datasets skip max_num_ped trajectory_size) >>
  match as_positive skip, as_positive max_num_ped, as_positive trajectory_size
  with
  | Some sk, Some mx, Some ts =>
      let! logs := read_datasets dataPath datasets in
      let ws := windows_of 0 logs ts mx sk in
      (match ws with
       | [] => emit EEmptyDatasetWarning
       | _ => ret tt
       end) >>
      ret {| windows := ws |}
  | _, _, _ => raise ConfigError
  end.

(** Modelled from the spec: the constructor [utils.TrajectoriesDataset],
    not among the sources. Section 4.3: it wraps the windows of the
    training loader and those of the validation loader into two
    independent iteration handles. *)
Definition TrajectoriesDataset (train_loader val_loader : loader)
    (prefetch_size : value) : M unit :=
  λ w, (Ok tt,
        log_event (ETrajectoriesDataset prefetch_size)
          (set_pipe {| train_handle := {| source := windows train_loader;
                                          cursor := 0 |};
                       val_handle := {| source := windows val_loader;
                                        cursor := 0 |};
                       active := None |} w)).

(** Modelled from the spec: [sess.run(dataset.init_train)] and
    [sess.run(dataset.init_val)] on the pipeline of
    [utils.TrajectoriesDataset]: the reset of one handle, which becomes the
    one the model reads from; the other handle is left as it is. *)
Definition init_handle (s : split) : M unit :=
  λ w, let p := pipe w in
       let p' := match s with
                 | Train => {| train_handle := reset (train_handle p);
                               val_handle := val_handle p;
                               active := Some Train |}
                 | Val => {| train_handle := train_handle p;
                             val_handle := reset (val_handle p);
                             active := Some Val |}
                 end in
       (Ok tt, log_event (EInit s) (set_pipe p' w)).

(** Modelled from the spec: one evaluation of the model, which advances
    the handle the model reads from and yields the window consumed. *)
Definition next_window : M Window :=
  λ w, let p := pipe w in
       match active p with
       | None => (Raise FailedPrecondition, w)
       | Some Train =>
           match advance (train_handle p) with
           | (Ok win, h) => (Ok win, set_pipe {| train_handle := h;
                                                 val_handle := val_handle p;
                                                 active := active p |} w)
           | (Raise e, _) => (Raise e, w)
           end
       | Some Val =>
           match advance (val_handle p) with
           | (Ok win, h) => (Ok win, set_pipe {| train_handle := train_handle p;
                                                 val_handle := h;
                                                 active := active p |} w)
           | (Raise e, _) => (Raise e, w)
           end
       end.

(** Modelled from the spec: the module names [pooling_layers] knows,
    as far as the script shows them (lines 153 and 158). *)
Definition recognized (v : value) : bool :=
  eq_str v "social" || eq_str v "occupancy".

(** Modelled from the spec: the constructor
    [pooling_layers.CombinedPooling], not among the sources. Section 4.5:
    it fails with [ConfigError] if the list is empty or contains an
    unrecognized module name. *)
Definition new_CombinedPooling (modules : list value) : M pooling_kind :=
  match modules with
  | [] => raise ConfigError
  | _ => if forallb recognized modules
         then emit (EPooling (CombinedPooling modules)) >>
              ret (CombinedPooling modules)
         else raise ConfigError
  end.

(** ** scripts/train.py: [logger] *)

(** The parsed command line: [modelParams] and the optional [--logLevel]
    and [--logFolder] (strings, or absent). *)
Record Args : Type := {
  modelParams : string;
  logLevel : option string;
  logFolder : option string
}.

(** Lines 25-29: the folder of the log file, from the command line or
    else from the parameters; [VNone] when neither gives one. *)
Definition choose_log_folder (hparams : gmap string value) (args : Args)
  : M value :=
  match logFolder args with
  | Some f => ret (VStr f)
  | None =>
      let! f := getattr hparams "logFolder" in
      if is_not_none f then getattr hparams "logFolder" else ret VNone
  end.

(** Lines 31-34: the log file is placed in the folder, which is created
    when it does not exist. *)
Definition place_log_file (log_folder log_file : value) : M value :=
  if is_not_none log_folder then
    match log_folder, log_file with
    | VStr folder, VStr file =>
        let! found := os_path_exists folder in
        (if negb found then os_makedirs folder else ret tt) >>
        ret (VStr (path_join folder file))
    | _, _ => raise TypeError
    end
  else ret log_file.

(** Lines 36-40: the level, from the command line or else from the
    parameters; the second test reads the attribute [logLeve]. *)
Definition choose_level (hparams : gmap string value) (args : Args)
  : M string :=
  match logLevel args with
  | Some l => ret (upper l)
  | None =>
      let! l := getattr hparams "logLeve" in
      if is_not_none l then
        let! l' := getattr hparams "logLevel" in
        lift (py_upper l')
      else ret "INFO"
  end.

(** Lines 42-60: the handlers of the root logger are replaced and the
    level is set. *)
Definition install_handlers (log_folder log_file : value) (level : string)
  : M unit :=
  emit ERemoveHandlers >>
  (if is_not_none log_folder
   then match log_file with
        | VStr f => file_handler f
        | _ => raise TypeError
        end
   else ret tt) >>
  emit EStreamHandler >>
  set_level level.

Definition logger (hparams : gmap string value) (args : Args) : M unit :=
  let! name := getattr hparams "name" in
  let! log_file := lift (py_add name (VStr "-train.log")) in
  let! log_folder := choose_log_folder hparams args in
  let! log_file := place_log_file log_folder log_file in
  let! level := choose_level hparams args in
  install_handlers log_folder log_file level.

(** ** scripts/train.py: [main] *)

(** Lines 113-132: one loader, for the datasets listed under [datasets]. *)
Definition load (hparams : gmap string value) (datasets : string)
    (trajectory_size : value) : M loader :=
  let! dataPath := getattr hparams "dataPath" in
  let! names := getattr hparams datasets in
  let! delimiter := getattr hparams "delimiter" in
  let! skip := getattr hparams "skip" in
  let! maxNumPed := getattr hparams "maxNumPed" in
  DataLoader dataPath names delimiter skip maxNumPed trajectory_size.

Definition load_datasets (hparams : gmap string value) : M (loader * loader) :=
  let! obsLen := getattr hparams "obsLen" in
  let! predLen := getattr hparams "predLen" in
  let! trajectory_size := lift (py_add obsLen predLen) in
  let! train_loader := load hparams "trainDatasets" trajectory_size in
  let! val_loader := load hparams "validationDatasets" trajectory_size in
  let! prefetchSize := getattr hparams "prefetchSize" in
  TrajectoriesDataset train_loader val_loader prefetchSize >>
  ret (train_loader, val_loader).

(** Lines 145-161: the pooling module. It starts as [None] and is
    replaced for a list and for the names [social] and [occupancy]; there
    is no final [else]. *)
Definition select_pooling (hparams : gmap string value)
  : M (option pooling_kind) :=
  let! poolingModule := getattr hparams "poolingModule" in
  match poolingModule with
  | VList modules =>
      let! pooling_class := new_CombinedPooling modules in
      ret (Some pooling_class)
  | _ =>
      if eq_str poolingModule "social" then
        emit (EPooling SocialPooling) >> ret (Some SocialPooling)
      else if eq_str poolingModule "occupancy" then
        emit (EPooling OccupancyPooling) >> ret (Some OccupancyPooling)
      else ret None
  end.

(** Lines 98-176: everything up to and including the construction of the
    model. The parameters are returned with [learningRateSteps] added. *)
Definition construct (hparams : gmap string value) (args : Args)
  : M (gmap string value * loader * loader) :=
  logger hparams args >>
  let! loaders := load_datasets hparams in
  let! pooling_module := select_pooling hparams in
  let hparams' := <["learningRateSteps" :=
                     VInt (Z.of_nat (num_sequences (fst loaders)))]> hparams in
  emit (ESocialModel pooling_module) >>
  ret (hparams', fst loaders, snd loaders).

(** The local variables of [main] assigned only under
    [if hparams.modelFolder:]. They are locals of [main], not of one
    experiment: what an experiment assigns is still there in the next.
    The saver is known by the graph it was made for. *)
Record save_locals : Type := {
  save_model : option bool;
  model_path : option string;
  checkpoints_path : option string;
  saver : option nat
}.

Definition no_save_locals : save_locals :=
  {| save_model := None; model_path := None;
     checkpoints_path := None; saver := None |}.

(** Lines 178-188, entered with the local variables as the earlier
    experiments left them: they are assigned when the model folder is
    truthy and left alone otherwise. *)
Definition setup_saving (hparams : gmap string value) (locals : save_locals)
  : M save_locals :=
  let! modelFolder := getattr hparams "modelFolder" in
  if truthy modelFolder then
    let! name := getattr hparams "name" in
    let! model_folder := lift (os_path_join modelFolder name) in
    let! found := os_path_exists model_folder in
    (if negb found
     then os_makedirs model_folder >>
          os_makedirs (path_join model_folder "checkpoints")
     else ret tt) >>
    let! model_path := lift (os_path_join (VStr model_folder) name) in
    let! checkpoints_path :=
      lift (os_path_join (VStr (path_join model_folder "checkpoints")) name) in
    let! saver := new_saver in
    ret {| save_model := Some true;
           model_path := Some model_path;
           checkpoints_path := Some checkpoints_path;
           saver := Some saver |}
  else ret locals.

(** Lines 207-223: the training phase of an epoch. *)
Definition train_phase (train_loader : loader) : M unit :=
  init_handle Train >>
  for_each (seq 0 (num_sequences train_loader))
    (λ _, let! w := next_window in emit (ETrainStep w)).

(** Lines 227-240: the validation phase of an epoch; it ends with the
    mean of the losses, a division by the sequence count. *)
Definition val_phase (val_loader : loader) : M unit :=
  init_handle Val >>
  for_each (seq 0 (num_sequences val_loader))
    (λ _, let! w := next_window in emit (EEvalStep w)) >>
  (if (num_sequences val_loader =? 0)%nat then raise ZeroDivisionError
   else ret tt).

(** Lines 242-251: the checkpoint of an epoch. *)
Definition save_checkpoint (locals : save_locals) (epoch : Z) : M unit :=
  let! guard := read_local "save_model" (save_model locals) in
  if guard : bool then
    let! saver := read_local "saver" (saver locals) in
    let! path := read_local "checkpoints_path" (checkpoints_path locals) in
    saver_save saver path (Some (epoch + 1))
  else ret tt.

(** Lines 203-251: one epoch. *)
Definition run_epoch (train_loader val_loader : loader) (locals : save_locals)
    (epoch : Z) : M unit :=
  train_phase train_loader >>
  val_phase val_loader >>
  save_checkpoint locals epoch.

(** Lines 252-254: the final model. *)
Definition save_final (locals : save_locals) : M unit :=
  let! guard := read_local "save_model" (save_model locals) in
  if guard : bool then
    let! saver := read_local "saver" (saver locals) in
    let! path := read_local "model_path" (model_path locals) in
    saver_save saver path None
  else ret tt.

(** Lines 192-255: the session. *)
Definition training (hparams : gmap string value)
    (train_loader val_loader : loader) (locals : save_locals) : M unit :=
  emit EInitVariables >>
  let! epochs := getattr hparams "epochs" in
  let! epoch_range := lift (py_range epochs) in
  for_each epoch_range (run_epoch train_loader val_loader locals) >>
  save_final locals.

(** Lines 97-255: the body of the loop over the experiments, entered with
    the local variables of [main] as the earlier experiments left them;
    it returns them as it leaves them. *)
Definition experiment (hparams : gmap string value) (args : Args)
    (locals : save_locals) : M save_locals :=
  let! built := construct hparams args in
  let '(hparams', train_loader, val_loader) := built in
  let! locals' := setup_saving hparams' locals in
  training hparams' train_loader val_loader locals' >>
  emit EResetGraph >>
  ret locals'.

(** Lines 96-255: the loop over the experiments; [hparams] of each
    experiment as loaded by [utils.YParams]. The local variables go from
    one experiment to the next. *)
Fixpoint experiments_loop (experiments : list (gmap string value))
    (args : Args) (locals : save_locals) : M save_locals :=
  match experiments with
  | [] => ret locals
  | hparams :: rest =>
      let! locals' := experiment hparams args locals in
      experiments_loop rest args locals'
  end.

(** [main]: at its start none of the local variables is assigned. *)
Definition main (experiments : list (gmap string value)) (args : Args)
  : M unit :=
  experiments_loop experiments args no_save_locals >> ret tt.

(** ** Coordinate Helper *)

Section CoordinateHelper.
Context {P : Type}.
Variable zero : P.
Variables add sub : P → P → P.

(** The entry of a tensor at a frame and a slot. *)
Definition entry {A} (t : list (list A)) (frame slot : nat) : option A :=
  t !! frame ≫= (.!! slot).

Definition mask_holds (mask : list (list bool)) (frame slot : nat) : bool :=
  default false (entry mask frame slot).

(** Modelled from the spec: [toRelative] of [coordinates_helpers], not
    among the sources. Section 4.4: per non-initial frame,
    [relative[t] = positions[t] - positions[t-1]] where both [mask[t]]
    and [mask[t-1]] hold, else the sentinel; the value at frame 0 is the
    sentinel. The sentinel is the zero displacement. *)
Definition toRelative (positions : list (list P)) (mask : list (list bool))
  : list (list P) :=
  imap (λ t row,
          imap (λ a p,
                  match t with
                  | O => zero
                  | S t' =>
                      if mask_holds mask t a && mask_holds mask t' a
                      then match entry positions t' a with
                           | Some q => sub p q
                           | None => zero
                           end
                      else zero
                  end) row) positions.

(** Modelled from the spec: [toAbsolute] of [coordinates_helpers], not
    among the sources. Section 4.4: absolute positions by cumulative
    summation of the displacements, starting from the origin positions,
    slot by slot. *)
Fixpoint toAbsolute (origin : list P) (relative : list (list P))
  : list (list P) :=
  match relative with
  | [] => []
  | r :: rest =>
      let current := zip_with add origin r in
      current :: toAbsolute current rest
  end.
End CoordinateHelper.

(** Points of the plane with exact coordinates. *)
Definition padd (p q : Z * Z) : Z * Z := (fst p + fst q, snd p + snd q).
Definition psub (p q : Z * Z) : Z * Z := (fst p - fst q, snd p - snd q).
Definition pzero : Z * Z := (0, 0).

(** ** Iterating a handle *)

(** At most [n] advances of a handle, stopping at the first exception:
    the windows delivered and the handle left behind. *)
Fixpoint collect (n : nat) (h : handle) : list Window * handle :=
  match n with
  | O => ([], h)
  | S n' =>
      match advance h with
      | (Ok w, h') => let (ws, h'') := collect n' h' in (w :: ws, h'')
      | (Raise _, h') => ([], h')
      end
  end.

(** One full iteration from reset: the handle is advanced until it
    raises [EndOfEpoch]. *)
Definition iterate (h : handle) : list Window * handle :=
  collect (S (length (source h))) (reset h).

(** The pipeline of the world iterates over the windows of the two
    loaders, as [TrajectoriesDataset] sets it up. *)
Definition wired (w : world) (train_loader val_loader : loader) : Prop :=
  source (train_handle (pipe w)) = windows train_loader
  ∧ source (val_handle (pipe w)) = windows val_loader.

(** The handle of a split, and the pipeline with that handle replaced. *)
Definition handle_of (s : split) (p : pipeline) : handle :=
  match s with Train => train_handle p | Val => val_handle p end.

Definition with_handle (s : split) (h : handle) (p : pipeline) : pipeline :=
  match s with
  | Train => {| train_handle := h; val_handle := val_handle p;
                active := active p |}
  | Val => {| train_handle := train_handle p; val_handle := h;
              active := active p |}
  end.

(** The world after [k] evaluations of the model on the handle of [s],
    each recorded by [mk]. *)
Definition stepped (s : split) (mk : Window → event) (k : nat) (w : world)
  : world :=
  let h := handle_of s (pipe w) in
  {| fs := fs w;
     files := files w;
     pipe := with_handle s {| source := source h; cursor := cursor h + k |}
               (pipe w);
     trace := trace w ++ map mk (take k (drop (cursor h) (source h))) |}.

(** The world after a whole phase on the split [s] over the windows
    [ws]: the handle of [s] has been reset and advanced to its end. *)
Definition after_phase (s : split) (mk : Window → event) (ws : list Window)
    (w : world) : world :=
  {| fs := fs w;
     files := files w;
     pipe := {| train_handle := match s with
                                | Train => {| source := ws;
                                              cursor := length ws |}
                                | Val => train_handle (pipe w)
                                end;
                val_handle := match s with
                              | Train => val_handle (pipe w)
                              | Val => {| source := ws; cursor := length ws |}
                              end;
                active := Some s |};
     trace := trace w ++ EInit s :: map mk ws |}.

(** A relation between the world before and the world after holds for
    every run of a computation. *)
Definition preserves {A} (R : world → world → Prop) (c : M A) : Prop :=
  ∀ w, R w (snd (c w)).

Definition same_files (w w' : world) : Prop := files w' = files w.
Definition same_fs (w w' : world) : Prop := fs w' = fs w.
Definition same_pipe (w w' : world) : Prop := pipe w' = pipe w.

(** ** A sample experiment *)

(** A frame at time [t] in which the agents [ids] are observed. *)
Definition sample_frame (t : Z) (ids : list Z) : Frame :=
  {| timestamp := t; observations := map (λ a, (a, (a + t, a - t))) ids |}.

Definition sample_hparams : gmap string value :=
  list_to_map
    [("name", VStr "exp"); ("obsLen", VInt 2); ("predLen", VInt 1);
     ("skip", VInt 1); ("maxNumPed", VInt 2); ("dataPath", VStr "data");
     ("trainDatasets", VList [VStr "a.txt"]);
     ("validationDatasets", VList [VStr "b.txt"]);
     ("delimiter", VStr "tab"); ("prefetchSize", VInt 1);
     ("poolingModule", VStr "social"); ("modelFolder", VStr "models");
     ("epochs", VInt 2); ("logFolder", VNone); ("logLevel", VStr "debug")].

(** Two dataset files: four frames with up to three agents, and three
    frames with up to two; a third file too short for any window. *)
Definition sample_world : world :=
  {| fs := ∅;
     files :=
       list_to_map
         [("data/a.txt",
           [sample_frame 0 [1; 2; 3]; sample_frame 10 [2; 3];
            sample_frame 20 [1; 3]; sample_frame 30 [1; 2; 3]]);
          ("data/b.txt",
           [sample_frame 0 [7]; sample_frame 10 [7]; sample_frame 20 [7; 8]]);
          ("data/short.txt", [sample_frame 0 [5]; sample_frame 10 [5]])];
     pipe := empty_pipeline;
     trace := [] |}.

Definition sample_args : Args :=
  {| modelParams := "exp.yaml"; logLevel := Some "info"; logFolder := None |}.

(** The first window of [data/a.txt]: frames 0 to 2, three agents in
    sight, two slots. *)
Definition sample_window : Window :=
  {| wdataset := 0;
     wstart := 0;
     wframes := [sample_frame 0 [1; 2; 3]; sample_frame 10 [2; 3];
                 sample_frame 20 [1; 3]];
     wslots := [1; 2];
     wpresence := [[true; true]; [false; true]; [true; false]] |}.

(** The second window of [data/a.txt] and the window of [data/b.txt]. *)
Definition sample_window_1 : Window :=
  {| wdataset := 0;
     wstart := 1;
     wframes := [sample_frame 10 [2; 3]; sample_frame 20 [1; 3];
                 sample_frame 30 [1; 2; 3]];
     wslots := [2; 3];
     wpresence := [[true; true]; [false; true]; [true; true]] |}.

Definition sample_val_window : Window :=
  {| wdataset := 0;
     wstart := 0;
     wframes := [sample_frame 0 [7]; sample_frame 10 [7];
                 sample_frame 20 [7; 8]];
     wslots := [7; 8];
     wpresence := [[true; false]; [true; false]; [true; true]] |}.

Definition sample_train_loader : loader :=
  {| windows := [sample_window; sample_window_1] |}.

Definition sample_val_loader : loader :=
  {| windows := [sample_val_window] |}.

(** The sample world once the pipeline has been set up. *)
Definition sample_wired_world : world :=
  snd (TrajectoriesDataset sample_train_loader sample_val_loader (VInt 1)
         sample_world).

(** Variants of the sample parameters: a pooling module of an unknown
    name, a training split without windows, a validation split without
    windows. *)
Definition unknown_pooling_hparams : gmap string value :=
  <["poolingModule" := VStr "attention"]> sample_hparams.

Definition empty_train_hparams : gmap string value :=
  <["trainDatasets" := VList [VStr "short.txt"]]> sample_hparams.

Definition empty_val_hparams : gmap string value :=
  <["validationDatasets" := VList [VStr "short.txt"]]> sample_hparams.

(** The sample parameters without a model folder. *)
Definition no_folder_hparams : gmap string value :=
  <["modelFolder" := VNone]> sample_hparams.

(** The command line without [--logLevel] and without [--logFolder]. *)
Definition bare_args : Args :=
  {| modelParams := "exp.yaml"; logLevel := None; logFolder := None |}.


(** The sample world once the pipeline has been set up and the model
    folder of the sample experiment has been prepared by the script. *)
Definition sample_prepared_world : world :=
  snd (setup_saving sample_hparams no_save_locals sample_wired_world).

(** ** Notions used to state the behaviour of the script *)

(** The command line with another [--logLevel]. *)
Definition with_level (l : string) (args : Args) : Args :=
  {| modelParams := modelParams args;
     logLevel := Some l;
     logFolder := logFolder args |}.

(** The command line with both [--logLevel] and [--logFolder]. *)
Definition full_args : Args :=
  {| modelParams := "exp.yaml";
     logLevel := Some "debug";
     logFolder := Some "logs/run" |}.

(** The calls of one epoch that saves to [checkpoints_path]. *)
Definition epoch_events (tl vl : loader) (checkpoints_path : string)
    (epoch : Z) : list event :=
  (EInit Train :: map ETrainStep (windows tl))
    ++ (EInit Val :: map EEvalStep (windows vl))
    ++ [ESave checkpoints_path (Some (epoch + 1))].

(** The save calls the local variables allow: none when [save_model] is
    unassigned, else a checkpoint to [checkpoints_path] or the final
    model to [model_path]. Every other call is allowed. *)
Definition save_allowed (locals : save_locals) (e : event) : Prop :=
  match e with
  | ESave p (Some _) =>
      save_model locals = Some true ∧ checkpoints_path locals = Some p
  | ESave p None =>
      save_model locals = Some true ∧ model_path locals = Some p
  | _ => True
  end.

(** The world after has the calls of the world before, followed by calls
    that all satisfy [P]. *)
Definition emits (P : event → Prop) (w w' : world) : Prop :=
  ∃ evs, trace w' = (trace w ++ evs)%list ∧ Forall P evs.

(** The local variables of an experiment with a model folder. *)
Definition sample_locals : save_locals :=
  {| save_model := Some true;
     model_path := Some "models/exp/exp";
     checkpoints_path := Some "models/exp/checkpoints/exp";
     saver := Some 0%nat |}.

(** * Properties *)

(** ** Coordinate Helper: the round trip *)

Section CoordinateHelperFacts.
Context {P : Type}.
Variable zero : P.
Variables add sub : P → P → P.
Hypothesis add_zero_r : ∀ p, add p zero = p.
Hypothesis add_sub : ∀ p q, add q (sub p q) = p.

Lemma toAbsolute_lookup_0 (o : list P) (rel : list (list P)) :
  toAbsolute add o rel !! 0%nat = zip_with add o <$> rel !! 0%nat.
Proof. destruct rel; reflexivity. Qed.

Lemma toAbsolute_lookup_S (rel : list (list P)) :
  ∀ (o : list P) (t : nat),
    toAbsolute add o rel !! S t
    = match toAbsolute add o rel !! t with
      | Some prev => zip_with add prev <$> rel !! S t
      | None => None
      end.
Proof.
  induction rel as [|r rest IH]; intros o t; [reflexivity|].
  destruct t as [|t]; simpl.
  - apply toAbsolute_lookup_0.
  - apply IH.
Qed.

Lemma toRelative_lookup (positions : list (list P)) mask (t : nat) row :
  positions !! t = Some row →
  ∃ rel_row, toRelative zero sub positions mask !! t = Some rel_row
    ∧ ∀ a p, row !! a = Some p →
        rel_row !! a
        = Some match t with
               | O => zero
               | S t' =>
                   if mask_holds mask t a && mask_holds mask t' a
                   then match entry positions t' a with
                        | Some q => sub p q
                        | None => zero
                        end
                   else zero
               end.
Proof.
  intros Hrow. unfold toRelative. rewrite list_lookup_imap, Hrow. simpl.
  eexists; split; [reflexivity|].
  intros a p Hp. rewrite list_lookup_imap, Hp. reflexivity.
Qed.

Lemma entry_Some {A} (t : list (list A)) (i a : nat) (x : A) :
  entry t i a = Some x ↔ ∃ row, t !! i = Some row ∧ row !! a = Some x.
Proof.
  unfold entry. destruct (t !! i) as [row|]; simpl; split.
  - intros H. eauto.
  - intros (row' & [= <-] & H). exact H.
  - discriminate.
  - intros (row' & [=] & _).
Qed.

(** C3. For a position tensor whose slot [a] is filled at every frame up
    to [t] and a mask that holds for [a] at every frame from 0 to [t],
    [toAbsolute] applied to the frame-0 positions and to the output of
    [toRelative] gives back the original position of [a] at frame [t].
    The arithmetic is exact: adding to [q] the difference [p - q] gives
    [p], and adding the zero displacement changes nothing. *)
Theorem coordinate_round_trip
    (positions : list (list P)) (mask : list (list bool)) (t a : nat) :
  (∀ i, (i ≤ t)%nat → mask_holds mask i a = true) →
  (∀ i, (i ≤ t)%nat → is_Some (entry positions i a)) →
  entry (toAbsolute add (default [] (head positions))
           (toRelative zero sub positions mask)) t a
  = entry positions t a.
Proof.
  induction t as [|t IH]; intros Hmask Hshape.
  - destruct (Hshape 0%nat (le_n _)) as [p Hp]. rewrite Hp.
    apply entry_Some in Hp as (row & Hrow & Hp).
    destruct (toRelative_lookup positions mask 0 row Hrow) as (rr & Hrr & Hat).
    apply entry_Some. exists (zip_with add row rr). split.
    + rewrite toAbsolute_lookup_0, Hrr.
      destruct positions as [|r0 ps]; [discriminate|].
      simpl in Hrow. injection Hrow as ->. reflexivity.
    + rewrite lookup_zip_with, Hp, (Hat a p Hp). simpl.
      by rewrite add_zero_r.
  - assert (Hprev : entry (toAbsolute add (default [] (head positions))
                             (toRelative zero sub positions mask)) t a
                    = entry positions t a).
    { apply IH; intros i Hi; [apply Hmask | apply Hshape]; lia. }
    destruct (Hshape t ltac:(lia)) as [q Hq].
    destruct (Hshape (S t) (le_n _)) as [p Hp].
    rewrite Hq in Hprev. rewrite Hp.
    apply entry_Some in Hprev as (prev & Hprev & Hprevq).
    pose proof Hp as Hp'.
    apply entry_Some in Hp' as (row & Hrow & Hrowp).
    destruct (toRelative_lookup positions mask (S t) row Hrow)
      as (rr & Hrr & Hat).
    apply entry_Some. exists (zip_with add prev rr). split.
    + by rewrite toAbsolute_lookup_S, Hprev, Hrr.
    + rewrite lookup_zip_with, Hprevq, (Hat a p Hrowp). simpl.
      rewrite (Hmask (S t) (le_n _)), (Hmask t ltac:(lia)), Hq. simpl.
      by rewrite add_sub.
Qed.
End CoordinateHelperFacts.

Lemma padd_zero_r (p : Z * Z) : padd p pzero = p.
Proof. destruct p as [x y]. unfold padd, pzero. simpl. f_equal; lia. Qed.

Lemma padd_psub (p q : Z * Z) : padd q (psub p q) = p.
Proof.
  destruct p as [x y], q as [u v]. unfold padd, psub. simpl. f_equal; lia.
Qed.

(** The second slot of the sample window holds agent 2, seen in the
    frames 0 and 1: its position at frame 1 comes back. *)
Lemma coordinate_round_trip_witness :
  entry (toAbsolute padd
           (default [] (head (position_tensor sample_window)))
           (toRelative pzero psub (position_tensor sample_window)
              (presence_mask sample_window))) 1 1
  = Some (12, -8).
Proof.
  transitivity (entry (position_tensor sample_window) 1 1); [|reflexivity].
  apply (coordinate_round_trip pzero padd psub padd_zero_r padd_psub).
  - intros i Hi. destruct i as [|[|i]]; [reflexivity | reflexivity | lia].
  - intros i Hi. destruct i as [|[|i]]; [by eexists | by eexists | lia].
Defined.

(** ** The exception monad *)

Lemma bind_ok {A B} (c : M A) (k : A → M B) (w w' : world) (a : A) :
  c w = (Ok a, w') → bind c k w = k a w'.
Proof. intros H. unfold bind. by rewrite H. Qed.

(** An exception raised by the first part of a sequence ends the
    sequence: nothing in the script catches it. *)
Lemma bind_raise {A B} (c : M A) (k : A → M B) (w w' : world) (e : exn) :
  c w = (Raise e, w') → bind c k w = (Raise e, w').
Proof. intros H. unfold bind. by rewrite H. Qed.

Lemma bind_inv_ok {A B} (c : M A) (k : A → M B) (w w' : world) (b : B) :
  bind c k w = (Ok b, w') → ∃ a w1, c w = (Ok a, w1) ∧ k a w1 = (Ok b, w').
Proof.
  unfold bind. destruct (c w) as [[a|e] w1]; [eauto | discriminate].
Qed.

Lemma getattr_found (hparams : gmap string value) attr v (w : world) :
  hparams !! attr = Some v → getattr hparams attr w = (Ok v, w).
Proof. intros H. unfold getattr. by rewrite H. Qed.

Lemma getattr_missing (hparams : gmap string value) attr (w : world) :
  hparams !! attr = None → getattr hparams attr w = (Raise (AttributeError attr), w).
Proof. intros H. unfold getattr. by rewrite H. Qed.

(** ** Iteration handles *)

Lemma advance_in_range (h : handle) (win : Window) :
  source h !! cursor h = Some win →
  advance h = (Ok win, {| source := source h; cursor := S (cursor h) |}).
Proof. intros H. unfold advance. by rewrite H. Qed.

Lemma advance_past_end (h : handle) :
  (length (source h) ≤ cursor h)%nat → advance h = (Raise EndOfEpoch, h).
Proof.
  intros H. unfold advance. by rewrite (lookup_ge_None_2 _ _ H).
Qed.

Lemma collect_rest (k : nat) :
  ∀ (h : handle) (n : nat),
    (length (source h) - cursor h = k)%nat →
    (cursor h ≤ length (source h))%nat →
    (k < n)%nat →
    collect n h
    = (drop (cursor h) (source h),
       {| source := source h; cursor := length (source h) |}).
Proof.
  induction k as [|k IH]; intros [src c] n Hk Hle Hn; simpl in *;
    (destruct n as [|n]; [lia|]); simpl.
  - assert (c = length src) as -> by lia.
    rewrite advance_past_end by (simpl; lia).
    by rewrite drop_all.
  - destruct (lookup_lt_is_Some_2 src c ltac:(lia)) as [win Hwin].
    rewrite (advance_in_range {| source := src; cursor := c |} win Hwin).
    simpl. rewrite (IH {| source := src; cursor := S c |} n); simpl; try lia.
    by rewrite (drop_S _ _ _ Hwin).
Qed.

Lemma iterate_all (h : handle) :
  iterate h = (source h, {| source := source h; cursor := length (source h) |}).
Proof.
  unfold iterate.
  rewrite (collect_rest (length (source h)) (reset h)); simpl; try lia.
  reflexivity.
Qed.

(** ** The phases of an epoch *)

Lemma next_window_active (s : split) (w : world) :
  active (pipe w) = Some s →
  next_window w
  = match advance (handle_of s (pipe w)) with
    | (Ok win, h) => (Ok win, set_pipe (with_handle s h (pipe w)) w)
    | (Raise e, _) => (Raise e, w)
    end.
Proof.
  intros H. unfold next_window. cbv zeta.
  destruct s; simpl; rewrite !H; reflexivity.
Qed.

Lemma stepped_0 (s : split) (mk : Window → event) (w : world) :
  stepped s mk 0 w = w.
Proof.
  destruct w as [f fl [[s1 c1] [s2 c2] act] tr]. unfold stepped.
  destruct s; simpl; rewrite Nat.add_0_r, app_nil_r; reflexivity.
Qed.

Lemma steps_run (s : split) (mk : Window → event) (k : nat) :
  ∀ (i : nat) (w : world),
    active (pipe w) = Some s →
    (cursor (handle_of s (pipe w)) + k
     ≤ length (source (handle_of s (pipe w))))%nat →
    for_each (seq i k) (λ _, let! win := next_window in emit (mk win)) w
    = (Ok tt, stepped s mk k w).
Proof.
  induction k as [|k IH]; intros i w Hact Hlen; simpl.
  - by rewrite stepped_0.
  - destruct (lookup_lt_is_Some_2 (source (handle_of s (pipe w)))
                (cursor (handle_of s (pipe w))) ltac:(lia)) as [win Hwin].
    unfold bind at 1. unfold bind at 1.
    rewrite (next_window_active s w Hact), (advance_in_range _ win Hwin).
    unfold emit. rewrite IH.
    + f_equal. destruct w as [f fl [[s1 c1] [s2 c2] act] tr].
      unfold stepped. destruct s; simpl in *;
        rewrite (drop_S _ _ _ Hwin); simpl;
        rewrite <- app_assoc; simpl;
        repeat f_equal; lia.
    + destruct w as [f fl [[s1 c1] [s2 c2] act] tr]. by destruct s.
    + destruct w as [f fl [[s1 c1] [s2 c2] act] tr].
      destruct s; simpl in *; lia.
Qed.

(** After the reset of the handle of [s], [length ws] evaluations consume
    the windows [ws] of that handle, in order, and none raises. *)
Lemma phase_steps (s : split) (mk : Window → event) (ws : list Window)
    (w : world) :
  source (handle_of s (pipe w)) = ws →
  (init_handle s >>
   for_each (seq 0 (length ws)) (λ _, let! win := next_window in emit (mk win)))
    w
  = (Ok tt, after_phase s mk ws w).
Proof.
  intros Hsrc. unfold bind at 1. unfold init_handle at 1.
  rewrite (steps_run s mk).
  - f_equal. destruct w as [f fl [[s1 c1] [s2 c2] act] tr].
    unfold stepped, after_phase. destruct s; simpl in *; subst;
      rewrite take_ge by (rewrite ?length_drop; simpl; lia);
      rewrite <- app_assoc; reflexivity.
  - destruct w as [f fl [[s1 c1] [s2 c2] act] tr]. by destruct s.
  - destruct w as [f fl [[s1 c1] [s2 c2] act] tr].
    destruct s; simpl in *; subst; lia.
Qed.

Lemma train_phase_run (train_loader val_loader : loader) (w : world) :
  wired w train_loader val_loader →
  train_phase train_loader w
  = (Ok tt, after_phase Train ETrainStep (windows train_loader) w).
Proof.
  intros [Ht _]. unfold train_phase, num_sequences.
  by apply (phase_steps Train).
Qed.

Lemma val_phase_run (train_loader val_loader : loader) (w : world) :
  wired w train_loader val_loader →
  val_phase val_loader w
  = (match windows val_loader with
     | [] => Raise ZeroDivisionError
     | _ => Ok tt
     end, after_phase Val EEvalStep (windows val_loader) w).
Proof.
  intros [_ Hv]. unfold val_phase, num_sequences.
  pose proof (phase_steps Val EEvalStep (windows val_loader) w Hv) as H.
  unfold bind in *.
  destruct (init_handle Val w) as [[[]|e] w1]; [|discriminate].
  rewrite H. by destruct (windows val_loader).
Qed.

Lemma after_phase_wired (s : split) (mk : Window → event)
    (train_loader val_loader : loader) (w : world) :
  wired w train_loader val_loader →
  wired (after_phase s mk (windows (match s with
                                    | Train => train_loader
                                    | Val => val_loader
                                    end)) w)
        train_loader val_loader.
Proof. intros [Ht Hv]. by destruct s. Qed.

(** ** The Sequence Windower *)

Lemma windower_inv (d : nat) (frames : list Frame) (tsize mx sk : nat)
    (win : Window) :
  win ∈ windower d frames tsize mx sk →
  ∃ s, win = window_at d frames tsize mx s
       ∧ (s `mod` sk = 0)%nat
       ∧ (s + tsize ≤ length frames)%nat
       ∧ supervisable win.
Proof.
  unfold windower. rewrite list_elem_of_filter, list_elem_of_In, in_map_iff.
  intros (Hsup & s & <- & Hs). exists s.
  apply list_elem_of_In in Hs. unfold starts in Hs.
  apply list_elem_of_filter in Hs as ((Hmod & Hle) & _). auto.
Qed.

Lemma windows_of_inv (logs : list (list Frame)) :
  ∀ (d : nat) (tsize mx sk : nat) (win : Window),
    win ∈ windows_of d logs tsize mx sk →
    ∃ d' frames, frames ∈ logs ∧ win ∈ windower d' frames tsize mx sk.
Proof.
  induction logs as [|frames rest IH]; intros d tsize mx sk win; simpl.
  - intros H. by apply not_elem_of_nil in H.
  - rewrite elem_of_app. intros [H|H].
    + exists d, frames. split; [left | exact H].
    + destruct (IH _ _ _ _ _ H) as (d' & fr & Hin & Hw).
      exists d', fr. split; [by right | exact Hw].
Qed.

(** A window holds at most [maxNumPed] slots: the first-seen agents of
    its frames, cut after [maxNumPed]. *)
Lemma window_at_slots (d : nat) (frames : list Frame) (tsize mx s : nat) :
  let win := window_at d frames tsize mx s in
  (length (wslots win) ≤ mx)%nat
  ∧ wslots win = take mx (first_seen (concat (map agents_of (wframes win)))).
Proof.
  simpl. split; [|reflexivity]. rewrite length_take. lia.
Qed.

(** A window that fits in the log spans exactly [tsize] frames, the
    consecutive frames of the log from its start index on. *)
Lemma window_at_frames (d : nat) (frames : list Frame) (tsize mx s : nat) :
  (s + tsize ≤ length frames)%nat →
  let win := window_at d frames tsize mx s in
  wstart win = s
  ∧ wframes win = take tsize (drop s frames)
  ∧ length (wframes win) = tsize.
Proof.
  intros Hle. simpl. repeat split.
  rewrite length_take, length_drop. lia.
Qed.

(** ** Relations kept by every step of the script *)

Section Preservation.
Variable R : world → world → Prop.
Hypothesis R_refl : ∀ w, R w w.
Hypothesis R_trans : ∀ w1 w2 w3, R w1 w2 → R w2 w3 → R w1 w3.

Lemma preserves_ret {A} (a : A) : preserves R (ret a).
Proof. intros w. apply R_refl. Qed.

Lemma preserves_raise {A} (e : exn) : preserves R (@raise A e).
Proof. intros w. apply R_refl. Qed.

Lemma preserves_lift {A} (r : result A) : preserves R (lift r).
Proof. intros w. apply R_refl. Qed.

Lemma preserves_getattr hparams attr : preserves R (getattr hparams attr).
Proof.
  intros w. unfold getattr. destruct (hparams !! attr); apply R_refl.
Qed.

Lemma preserves_read_local {A} name (v : option A) :
  preserves R (read_local name v).
Proof. intros w. destruct v; apply R_refl. Qed.

Lemma preserves_exists p : preserves R (os_path_exists p).
Proof. intros w. apply R_refl. Qed.

Lemma preserves_bind {A B} (c : M A) (k : A → M B) :
  preserves R c → (∀ a, preserves R (k a)) → preserves R (bind c k).
Proof.
  intros Hc Hk w. unfold bind. specialize (Hc w).
  destruct (c w) as [[a|e] w1]; simpl in *; [|exact Hc].
  eapply R_trans; [exact Hc | apply Hk].
Qed.

Lemma preserves_for_each {A} (l : list A) (body : A → M unit) :
  (∀ x, preserves R (body x)) → preserves R (for_each l body).
Proof.
  intros Hb. induction l as [|x l IH]; simpl.
  - apply preserves_ret.
  - apply preserves_bind; [apply Hb | intros _; exact IH].
Qed.

(** The outcome of a run that keeps [R]. *)
Lemma preserves_run {A} (c : M A) (w w' : world) (r : result A) :
  preserves R c → c w = (r, w') → R w w'.
Proof. intros Hc H. specialize (Hc w). by rewrite H in Hc. Qed.
End Preservation.

Ltac rel_side :=
  intros; unfold same_files, same_fs, same_pipe in *; simpl; congruence.

Lemma emit_same_files e : preserves same_files (emit e).
Proof. intros w. reflexivity. Qed.

Lemma emit_same_fs e : preserves same_fs (emit e).
Proof. intros w. reflexivity. Qed.

Lemma emit_same_pipe e : preserves same_pipe (emit e).
Proof. intros w. reflexivity. Qed.

Lemma makedirs_same_files p : preserves same_files (os_makedirs p).
Proof.
  intros w. unfold os_makedirs. destruct (String.eqb p ""); [done|].
  by destruct (bool_decide _).
Qed.

Lemma makedirs_same_pipe p : preserves same_pipe (os_makedirs p).
Proof.
  intros w. unfold os_makedirs. destruct (String.eqb p ""); [done|].
  by destruct (bool_decide _).
Qed.

Lemma init_handle_same_files s : preserves same_files (init_handle s).
Proof. intros w. reflexivity. Qed.

Lemma init_handle_same_fs s : preserves same_fs (init_handle s).
Proof. intros w. reflexivity. Qed.

Lemma next_window_same_files : preserves same_files next_window.
Proof.
  intros w. unfold next_window. cbv zeta.
  destruct (active (pipe w)) as [[]|]; [| |reflexivity];
    destruct (advance _) as [[?|?] ?]; reflexivity.
Qed.

Lemma next_window_same_fs : preserves same_fs next_window.
Proof.
  intros w. unfold next_window. cbv zeta.
  destruct (active (pipe w)) as [[]|]; [| |reflexivity];
    destruct (advance _) as [[?|?] ?]; reflexivity.
Qed.

Lemma TrajectoriesDataset_same_files tl vl pf :
  preserves same_files (TrajectoriesDataset tl vl pf).
Proof. intros w. reflexivity. Qed.

Lemma saver_save_same_fs sv path step :
  preserves same_fs (saver_save sv path step).
Proof.
  intros w. unfold saver_save. destruct (negb _); [done|].
  by destruct (parent_exists path w).
Qed.

Lemma saver_save_same_pipe sv path step :
  preserves same_pipe (saver_save sv path step).
Proof.
  intros w. unfold saver_save. destruct (negb _); [done|].
  by destruct (parent_exists path w).
Qed.

(** One step of a proof that a composite computation keeps a relation. *)
Ltac preserve_step :=
  first
    [ apply preserves_ret; rel_side
    | apply preserves_raise; rel_side
    | apply preserves_lift; rel_side
    | apply preserves_getattr; rel_side
    | apply preserves_read_local; rel_side
    | apply preserves_exists; rel_side
    | apply emit_same_files | apply emit_same_fs | apply emit_same_pipe
    | apply makedirs_same_files | apply makedirs_same_pipe
    | apply init_handle_same_files | apply init_handle_same_fs
    | apply next_window_same_files | apply next_window_same_fs
    | apply TrajectoriesDataset_same_files
    | apply saver_save_same_fs | apply saver_save_same_pipe
    | apply preserves_bind; [rel_side | | intros ?]
    | apply preserves_for_each; [rel_side | rel_side | intros ?]
    | match goal with
      | |- preserves _ (match ?x with _ => _ end) => destruct x
      | |- preserves _ (let '(_, _) := ?x in _) => destruct x
      end ].

Ltac preserve := repeat preserve_step.

(** ** The loaders *)

Lemma as_positive_inv (v : value) (k : nat) :
  as_positive v = Some k → ∃ n, v = VInt n ∧ 0 < n ∧ k = Z.to_nat n.
Proof.
  destruct v as [| |n| |]; simpl; try discriminate.
  destruct (0 <? n) eqn:Hn; [|discriminate].
  intros [= <-]. exists n. repeat split. lia.
Qed.

Lemma read_files_inv (dp : string) (names : list value) :
  ∀ (w w' : world) (logs : list (list Frame)),
    read_files dp names w = (Ok logs, w') →
    w' = w
    ∧ ∀ frames, frames ∈ logs → ∃ path, files w !! path = Some frames.
Proof.
  induction names as [|v rest IH]; intros w w' logs; simpl.
  - intros [= <- <-]. split; [reflexivity|].
    intros frames H. by apply not_elem_of_nil in H.
  - destruct v as [| | |name|]; try discriminate.
    unfold bind at 1.
    destruct (files w !! path_join dp name) as [fr|] eqn:Hfr; [|discriminate].
    unfold bind at 1.
    destruct (read_files dp rest w) as [[others|e] w1] eqn:Hrest;
      [|discriminate].
    intros [= <- <-]. destruct (IH _ _ _ Hrest) as [-> Hothers].
    split; [reflexivity|]. intros frames [->|Hin]%elem_of_cons; eauto.
Qed.

Lemma DataLoader_inv (dp ds dl sk mx ts : value) (w w' : world) (l : loader) :
  DataLoader dp ds dl sk mx ts w = (Ok l, w') →
  ∃ (sk' mx' ts' : nat) (logs : list (list Frame)),
    as_positive sk = Some sk'
    ∧ as_positive mx = Some mx'
    ∧ as_positive ts = Some ts'
    ∧ windows l = windows_of 0 logs ts' mx' sk'
    ∧ (∀ frames, frames ∈ logs → ∃ path, files w !! path = Some frames)
    ∧ files w' = files w.
Proof.
  unfold DataLoader. intros H.
  apply bind_inv_ok in H as ([] & w1 & Hemit & H).
  injection Hemit as <-.
  destruct (as_positive sk) as [sk'|]; [|discriminate].
  destruct (as_positive mx) as [mx'|]; [|discriminate].
  destruct (as_positive ts) as [ts'|]; [|discriminate].
  apply bind_inv_ok in H as (logs & w2 & Hread & H).
  exists sk', mx', ts', logs. repeat split.
  - apply bind_inv_ok in H as ([] & w3 & _ & H). by injection H as <- _.
  - unfold read_datasets in Hread.
    destruct dp as [| | |dp'|]; try discriminate.
    destruct ds as [| | | |names]; try discriminate.
    by apply read_files_inv in Hread as [_ Hlogs].
  - unfold read_datasets in Hread.
    destruct dp as [| | |dp'|]; try discriminate.
    destruct ds as [| | | |names]; try discriminate.
    apply read_files_inv in Hread as [-> _].
    apply bind_inv_ok in H as ([] & w3 & Hwarn & H). injection H as _ <-.
    destruct (windows_of _ _ _ _ _); by injection Hwarn as <-.
Qed.

Lemma getattr_inv (hparams : gmap string value) attr (w w' : world) v :
  getattr hparams attr w = (Ok v, w') → hparams !! attr = Some v ∧ w' = w.
Proof.
  unfold getattr. destruct (hparams !! attr); [|discriminate].
  by intros [= <- <-].
Qed.

Lemma load_inv (hparams : gmap string value) (datasets : string)
    (ts : value) (w w' : world) (l : loader) :
  load hparams datasets ts w = (Ok l, w') →
  ∃ dp names dl sk mx,
    hparams !! "skip" = Some sk
    ∧ hparams !! "maxNumPed" = Some mx
    ∧ hparams !! datasets = Some names
    ∧ DataLoader dp names dl sk mx ts w = (Ok l, w').
Proof.
  unfold load. intros H.
  apply bind_inv_ok in H as (dp & w1 & [_ ->]%getattr_inv & H).
  apply bind_inv_ok in H as (names & w1 & [Hnames ->]%getattr_inv & H).
  apply bind_inv_ok in H as (dl & w1 & [_ ->]%getattr_inv & H).
  apply bind_inv_ok in H as (sk & w1 & [Hsk ->]%getattr_inv & H).
  apply bind_inv_ok in H as (mx & w1 & [Hmx ->]%getattr_inv & H).
  exists dp, names, dl, sk, mx. auto.
Qed.

(** C6. Every window of a loader built by the script holds at most
    [hparams.maxNumPed] agent-slots, however many agents appear in its
    frames: the slots are the first-seen agents of the window, cut after
    [maxNumPed], so the excess agents are dropped and the loader does not
    fail. *)
Theorem maxNumPed_caps_every_window
    (hparams : gmap string value) (datasets : string) (ts : value)
    (w w' : world) (l : loader) (m : Z) (win : Window) :
  hparams !! "maxNumPed" = Some (VInt m) →
  load hparams datasets ts w = (Ok l, w') →
  win ∈ windows l →
  Z.of_nat (length (wslots win)) ≤ m
  ∧ wslots win
    = take (Z.to_nat m) (first_seen (concat (map agents_of (wframes win)))).
Proof.
  intros Hm Hload Hwin.
  apply load_inv in Hload as (dp & names & dl & sk & mx & _ & Hmx & _ & Hload).
  rewrite Hm in Hmx. injection Hmx as <-.
  apply DataLoader_inv in Hload
    as (sk' & mx' & ts' & logs & _ & Hmx' & _ & Hws & _).
  apply as_positive_inv in Hmx' as (n & [= <-] & Hpos & ->).
  rewrite Hws in Hwin.
  apply windows_of_inv in Hwin as (d & frames & _ & Hwin).
  apply windower_inv in Hwin as (s & -> & _).
  destruct (window_at_slots d frames ts' (Z.to_nat m) s) as [Hlen Hslots].
  split; [lia | exact Hslots].
Qed.

Lemma maxNumPed_caps_every_window_witness :
  Z.of_nat (length (wslots sample_window)) ≤ 2
  ∧ wslots sample_window
    = take 2 (first_seen (concat (map agents_of (wframes sample_window)))).
Proof.
  apply (maxNumPed_caps_every_window sample_hparams "trainDatasets" (VInt 3)
           sample_world
           (snd (load sample_hparams "trainDatasets" (VInt 3) sample_world))
           {| windows := [sample_window;
                          window_at 0 [sample_frame 0 [1; 2; 3];
                                       sample_frame 10 [2; 3];
                                       sample_frame 20 [1; 3];
                                       sample_frame 30 [1; 2; 3]] 3 2 1] |}).
  - reflexivity.
  - vm_compute. reflexivity.
  - simpl. left.
Defined.

(** C7. The script passes [trajectory_size = obsLen + predLen] to the
    training loader and to the validation loader, and every window of
    either loader spans exactly that many frames: consecutive frames of
    one dataset log, from the start index of the window on. *)
Theorem trajectory_size_is_window_length
    (hparams : gmap string value) (w w' : world) (l1 l2 : loader)
    (o p : Z) :
  hparams !! "obsLen" = Some (VInt o) →
  hparams !! "predLen" = Some (VInt p) →
  load_datasets hparams w = (Ok (l1, l2), w') →
  (∃ w1 w2,
      load hparams "trainDatasets" (VInt (o + p)) w = (Ok l1, w1)
      ∧ load hparams "validationDatasets" (VInt (o + p)) w1 = (Ok l2, w2))
  ∧ ∀ win, win ∈ (windows l1 ++ windows l2)%list →
      length (wframes win) = Z.to_nat (o + p)
      ∧ ∃ path frames,
          files w !! path = Some frames
          ∧ (wstart win + Z.to_nat (o + p) ≤ length frames)%nat
          ∧ wframes win = take (Z.to_nat (o + p)) (drop (wstart win) frames).
Proof.
  intros Ho Hp H. unfold load_datasets in H.
  rewrite (bind_ok _ _ _ _ _ (getattr_found _ _ _ _ Ho)) in H.
  rewrite (bind_ok _ _ _ _ _ (getattr_found _ _ _ _ Hp)) in H.
  unfold bind at 1 in H. simpl in H.
  apply bind_inv_ok in H as (tl & w1 & Htrain & H).
  apply bind_inv_ok in H as (vl & w2 & Hval & H).
  apply bind_inv_ok in H as (pf & w3 & _ & H).
  apply bind_inv_ok in H as ([] & w4 & _ & H).
  injection H as <- <- _.
  split; [eauto|].
  assert (Hone : ∀ key (wa wb : world) (l : loader) (win : Window),
             files wa = files w →
             load hparams key (VInt (o + p)) wa = (Ok l, wb) →
             win ∈ windows l →
             files wb = files w
             ∧ length (wframes win) = Z.to_nat (o + p)
             ∧ ∃ path frames,
                 files w !! path = Some frames
                 ∧ (wstart win + Z.to_nat (o + p) ≤ length frames)%nat
                 ∧ wframes win
                   = take (Z.to_nat (o + p)) (drop (wstart win) frames)).
  { intros key wa wb l win Hfiles Hload Hwin.
    apply load_inv in Hload as (dp & names & dl & sk & mx & _ & _ & _ & Hload).
    apply DataLoader_inv in Hload
      as (sk' & mx' & ts' & logs & _ & _ & Hts & Hws & Hlogs & Hsame).
    apply as_positive_inv in Hts as (n & [= <-] & _ & ->).
    rewrite Hws in Hwin.
    apply windows_of_inv in Hwin as (d & frames & Hfr & Hwin).
    apply windower_inv in Hwin as (s & -> & _ & Hfit & _).
    destruct (window_at_frames d frames (Z.to_nat (o + p)) mx' s Hfit)
      as (Hstart & Hframes & Hlen).
    split; [congruence|]. split; [exact Hlen|].
    destruct (Hlogs frames Hfr) as [path Hpath]. rewrite Hfiles in Hpath.
    exists path, frames. rewrite Hstart. auto. }
  assert (Hfiles1 : files w1 = files w).
  { apply load_inv in Htrain
      as (dp & names & dl & sk & mx & _ & _ & _ & Hload).
    by apply DataLoader_inv in Hload as (? & ? & ? & ? & _ & _ & _ & _ & _ & ?). }
  intros win [Hin|Hin]%elem_of_app.
  - by destruct (Hone _ _ _ _ _ eq_refl Htrain Hin) as (_ & ? & ?).
  - by destruct (Hone _ _ _ _ _ Hfiles1 Hval Hin) as (_ & ? & ?).
Qed.

Lemma trajectory_size_is_window_length_witness :
  length (wframes sample_window) = 3%nat.
Proof.
  assert (Hrun : load_datasets sample_hparams sample_world
                 = (Ok (sample_train_loader, sample_val_loader),
                    snd (load_datasets sample_hparams sample_world))).
  { vm_compute. reflexivity. }
  destruct (trajectory_size_is_window_length sample_hparams sample_world _
              sample_train_loader sample_val_loader 2 1
              eq_refl eq_refl Hrun) as [_ Hall].
  destruct (Hall sample_window) as [Hlen _].
  - simpl. left.
  - exact Hlen.
Defined.

(** ** Epochs *)

Lemma wired_same_pipe (w w' : world) (tl vl : loader) :
  same_pipe w w' → wired w tl vl → wired w' tl vl.
Proof. unfold same_pipe, wired. by intros ->. Qed.

Lemma save_checkpoint_same_pipe locals epoch :
  preserves same_pipe (save_checkpoint locals epoch).
Proof. unfold save_checkpoint. preserve. Qed.


Lemma save_checkpoint_outcome locals epoch (w : world) :
  fst (save_checkpoint locals epoch w) = Ok tt
  ∨ fst (save_checkpoint locals epoch w) = Raise ValueError
  ∨ fst (save_checkpoint locals epoch w) = Raise TypeError
  ∨ ∃ name, fst (save_checkpoint locals epoch w)
            = Raise (UnboundLocalError name).
Proof.
  unfold save_checkpoint.
  destruct locals as [[[]|] mp [cp|] [sv|]]; simpl; eauto 6.
  unfold bind, ret, saver_save. destruct (negb _); simpl; eauto 6.
  destruct (parent_exists cp w); simpl; eauto.
Qed.

(** One epoch on a wired pipeline: both phases consume every window of
    their loader; the mean of the validation losses fails for an empty
    validation loader; then comes the checkpoint. *)
Lemma run_epoch_run (tl vl : loader) (locals : save_locals) (epoch : Z)
    (w : world) :
  wired w tl vl →
  run_epoch tl vl locals epoch w
  = let w2 := after_phase Val EEvalStep (windows vl)
                (after_phase Train ETrainStep (windows tl) w) in
    match windows vl with
    | [] => (Raise ZeroDivisionError, w2)
    | _ => save_checkpoint locals epoch w2
    end.
Proof.
  intros Hw. unfold run_epoch.
  rewrite (bind_ok _ _ _ _ _ (train_phase_run tl vl w Hw)).
  pose proof (after_phase_wired Train ETrainStep tl vl w Hw) as Hw1.
  pose proof (val_phase_run tl vl _ Hw1) as Hval.
  destruct (windows vl) as [|v ws] eqn:Hvl.
  - by rewrite (bind_raise _ _ _ _ _ Hval).
  - by rewrite (bind_ok _ _ _ _ _ Hval).
Qed.

Lemma run_epoch_wired (tl vl : loader) (locals : save_locals) (epoch : Z)
    (w : world) :
  wired w tl vl → wired (snd (run_epoch tl vl locals epoch w)) tl vl.
Proof.
  intros Hw. rewrite (run_epoch_run tl vl locals epoch w Hw). cbv zeta.
  pose proof (after_phase_wired Val EEvalStep tl vl _
                (after_phase_wired Train ETrainStep tl vl w Hw)) as Hw2.
  destruct (windows vl) as [|v ws] eqn:Hvl; [exact Hw2|].
  eapply wired_same_pipe; [apply save_checkpoint_same_pipe | exact Hw2].
Qed.

Lemma iterate_wired_train (tl vl : loader) (w : world) :
  wired w tl vl → fst (iterate (train_handle (pipe w))) = windows tl.
Proof. intros [Ht _]. by rewrite iterate_all. Qed.

(** C5. Iterating the windows of a loader from reset yields the same
    sequence every time: the handle delivers the windows of the loader in
    their order whatever state an earlier epoch left it in, so the
    training phase of an epoch and that of the next epoch run on the
    same windows -- the same records, hence the same agent-slot tables and
    frame ranges -- in the same order. *)
Theorem windower_iteration_is_deterministic
    (tl vl : loader) (locals : save_locals) (epoch : Z) (w : world) :
  wired w tl vl →
  let w1 := snd (run_epoch tl vl locals epoch w) in
  fst (iterate (train_handle (pipe w))) = windows tl
  ∧ fst (iterate (train_handle (pipe w1))) = windows tl
  ∧ fst (iterate (snd (iterate (train_handle (pipe w))))) = windows tl
  ∧ train_phase tl w
    = (Ok tt, after_phase Train ETrainStep (windows tl) w)
  ∧ train_phase tl w1
    = (Ok tt, after_phase Train ETrainStep (windows tl) w1).
Proof.
  intros Hw w1.
  pose proof (run_epoch_wired tl vl locals epoch w Hw) as Hw1.
  repeat split.
  - by apply (iterate_wired_train tl vl).
  - by apply (iterate_wired_train tl vl).
  - rewrite !iterate_all. simpl. apply Hw.
  - by apply (train_phase_run tl vl).
  - by apply (train_phase_run tl vl).
Qed.

Lemma windower_iteration_is_deterministic_witness :
  fst (iterate (train_handle (pipe sample_wired_world)))
  = [sample_window; sample_window_1]
  ∧ fst (iterate (train_handle (pipe
           (snd (run_epoch sample_train_loader sample_val_loader
                   no_save_locals 0 sample_wired_world)))))
    = [sample_window; sample_window_1].
Proof.
  destruct (windower_iteration_is_deterministic
              sample_train_loader sample_val_loader no_save_locals 0
              sample_wired_world) as (H1 & H2 & _).
  - split; reflexivity.
  - split; [exact H1 | exact H2].
Defined.

Lemma run_epoch_outcome (tl vl : loader) (locals : save_locals) (epoch : Z)
    (w : world) :
  wired w tl vl →
  fst (run_epoch tl vl locals epoch w) = Ok tt
  ∨ fst (run_epoch tl vl locals epoch w) = Raise ZeroDivisionError
  ∨ fst (run_epoch tl vl locals epoch w) = Raise ValueError
  ∨ fst (run_epoch tl vl locals epoch w) = Raise TypeError
  ∨ ∃ name, fst (run_epoch tl vl locals epoch w)
            = Raise (UnboundLocalError name).
Proof.
  intros Hw. rewrite (run_epoch_run tl vl locals epoch w Hw). cbv zeta.
  destruct (windows vl) as [|v ws]; [by right; left|].
  destruct (save_checkpoint_outcome locals epoch
              (after_phase Val EEvalStep (v :: ws)
                 (after_phase Train ETrainStep (windows tl) w)))
    as [?|[?|[?|?]]]; auto 6.
Qed.

Lemma epochs_never_end_of_epoch (tl vl : loader) (locals : save_locals)
    (epochs : list Z) :
  ∀ w : world,
    wired w tl vl →
    fst (for_each epochs (run_epoch tl vl locals) w) ≠ Raise EndOfEpoch.
Proof.
  induction epochs as [|epoch rest IH]; intros w Hw; simpl; [discriminate|].
  pose proof (run_epoch_wired tl vl locals epoch w Hw) as Hw1.
  pose proof (run_epoch_outcome tl vl locals epoch w Hw) as Hout.
  unfold bind. destruct (run_epoch tl vl locals epoch w) as [[[]|e] w1].
  - by apply IH.
  - simpl in *. destruct Hout as [?|[?|[?|[?|[? ?]]]]]; congruence.
Qed.

Lemma save_final_outcome locals (w : world) :
  fst (save_final locals w) = Ok tt
  ∨ fst (save_final locals w) = Raise ValueError
  ∨ fst (save_final locals w) = Raise TypeError
  ∨ ∃ name, fst (save_final locals w) = Raise (UnboundLocalError name).
Proof.
  unfold save_final.
  destruct locals as [[[]|] [mp|] cp [sv|]]; simpl; eauto 6.
  unfold bind, ret, saver_save. destruct (negb _); simpl; eauto 6.
  destruct (parent_exists mp w); simpl; eauto.
Qed.

Lemma training_never_end_of_epoch (hparams : gmap string value)
    (tl vl : loader) (locals : save_locals) (w : world) :
  wired w tl vl →
  fst (training hparams tl vl locals w) ≠ Raise EndOfEpoch.
Proof.
  intros Hw. unfold training, bind at 1, emit at 1.
  unfold bind at 1, getattr.
  destruct (hparams !! "epochs") as [v|]; [|discriminate].
  unfold ret at 1, bind at 1, lift.
  destruct (py_range v) as [epochs|e] eqn:Hrange.
  - pose proof (epochs_never_end_of_epoch tl vl locals epochs
                  (log_event EInitVariables w) Hw) as Hloop.
    unfold bind.
    destruct (for_each epochs _ _) as [[[]|e] w1]; [|exact Hloop].
    destruct (save_final_outcome locals w1) as [->|[->|[->|[name ->]]]];
      discriminate.
  - destruct v; simpl in Hrange; try discriminate; by injection Hrange as <-.
Qed.

(** C4 (as the script has it). Advancing a handle past its last window
    raises [EndOfEpoch]. The training loop never does so, and it has no
    handler for the condition: a phase resets its handle and evaluates the
    model exactly [num_sequences] times, which leaves the handle at the end
    of its windows; no run of the session ends with [EndOfEpoch]; and if
    the handle did raise it inside the loop, the loop would end with it. *)
Theorem end_of_epoch_is_neither_raised_nor_caught
    (hparams : gmap string value) (tl vl : loader) (locals : save_locals)
    (w : world) :
  wired w tl vl →
  (∀ h, (length (source h) ≤ cursor h)%nat → advance h = (Raise EndOfEpoch, h))
  ∧ train_phase tl w = (Ok tt, after_phase Train ETrainStep (windows tl) w)
  ∧ snd (val_phase vl w) = after_phase Val EEvalStep (windows vl) w
  ∧ fst (val_phase vl w) ≠ Raise EndOfEpoch
  ∧ fst (training hparams tl vl locals w) ≠ Raise EndOfEpoch
  ∧ ∀ (w0 : world) (i n : nat),
      fst (next_window w0) = Raise EndOfEpoch →
      fst (for_each (seq i (S n))
             (λ _, let! win := next_window in emit (ETrainStep win)) w0)
      = Raise EndOfEpoch.
Proof.
  intros Hw. repeat split.
  - apply advance_past_end.
  - by apply (train_phase_run tl vl).
  - by rewrite (val_phase_run tl vl w Hw).
  - rewrite (val_phase_run tl vl w Hw). simpl. by destruct (windows vl).
  - by apply training_never_end_of_epoch.
  - intros w0 i n Hraise. simpl. unfold bind.
    destruct (next_window w0) as [[win|e] w1]; simpl in *; congruence.
Qed.

Lemma end_of_epoch_is_neither_raised_nor_caught_witness :
  train_phase sample_train_loader sample_wired_world
  = (Ok tt,
     after_phase Train ETrainStep [sample_window; sample_window_1]
       sample_wired_world)
  ∧ fst (training sample_hparams sample_train_loader sample_val_loader
           no_save_locals sample_wired_world) ≠ Raise EndOfEpoch.
Proof.
  destruct (end_of_epoch_is_neither_raised_nor_caught sample_hparams
              sample_train_loader sample_val_loader no_save_locals
              sample_wired_world) as (_ & H1 & _ & _ & H2 & _).
  - split; reflexivity.
  - split; [exact H1 | exact H2].
Defined.

(** The script on the sample experiment alone: two epochs. In each phase the
    model is evaluated once per window of the loader and the handle is
    reset before the next phase, so no advance goes past the last window:
    no [EndOfEpoch] arises at any of the four phase ends, none is caught,
    and the run ends normally with the handles at the end of their
    windows, where one more advance would have raised the condition. *)
Lemma training_loop_meets_no_end_of_epoch :
  fst (main [sample_hparams] sample_args sample_world) = Ok tt
  ∧ trace (snd (main [sample_hparams] sample_args sample_world))
    = [ERemoveHandlers; EStreamHandler; ESetLevel "INFO";
       EDataLoader (VList [VStr "a.txt"]) (VInt 1) (VInt 2) (VInt 3);
       EDataLoader (VList [VStr "b.txt"]) (VInt 1) (VInt 2) (VInt 3);
       ETrajectoriesDataset (VInt 1); EPooling SocialPooling;
       ESocialModel (Some SocialPooling);
       EMakedirs "models/exp"; EMakedirs "models/exp/checkpoints";
       ESaver; EInitVariables;
       EInit Train; ETrainStep sample_window; ETrainStep sample_window_1;
       EInit Val; EEvalStep sample_val_window;
       ESave "models/exp/checkpoints/exp" (Some 1);
       EInit Train; ETrainStep sample_window; ETrainStep sample_window_1;
       EInit Val; EEvalStep sample_val_window;
       ESave "models/exp/checkpoints/exp" (Some 2);
       ESave "models/exp/exp" None; EResetGraph]
  ∧ pipe (snd (main [sample_hparams] sample_args sample_world))
    = {| train_handle := {| source := [sample_window; sample_window_1];
                            cursor := 2 |};
         val_handle := {| source := [sample_val_window]; cursor := 1 |};
         active := Some Val |}
  ∧ fst (advance {| source := [sample_window; sample_window_1];
                    cursor := 2 |})
    = Raise EndOfEpoch.
Proof. vm_compute. repeat split. Qed.

(** ** The pooling module *)

(** The script on parameters whose pooling module is the unknown name
    [attention]: both loaders and the pipeline are built, then the model
    is constructed with no pooling module; no [ConfigError] is raised and
    the experiment runs to its end. *)
Lemma unknown_pooling_name_builds_the_model :
  fst (main [unknown_pooling_hparams] sample_args sample_world) = Ok tt
  ∧ trace (snd (construct unknown_pooling_hparams sample_args sample_world))
    = [ERemoveHandlers; EStreamHandler; ESetLevel "INFO";
       EDataLoader (VList [VStr "a.txt"]) (VInt 1) (VInt 2) (VInt 3);
       EDataLoader (VList [VStr "b.txt"]) (VInt 1) (VInt 2) (VInt 3);
       ETrajectoriesDataset (VInt 1); ESocialModel None].
Proof. vm_compute. split; reflexivity. Qed.

(** C1 (as the script has it). For parameters whose [poolingModule] is a
    single name other than [social] and [occupancy], the selection of the
    pooling module raises nothing and leaves [pooling_module] at [None];
    once the logger, both loaders and the dataset pipeline have been set
    up, the model is constructed with no pooling module. *)
Theorem unknown_pooling_name_means_no_pooling
    (hparams : gmap string value) (args : Args) (s : string)
    (w w1 : world) (loaders : loader * loader) :
  hparams !! "poolingModule" = Some (VStr s) →
  s ≠ "social" →
  s ≠ "occupancy" →
  (logger hparams args >> load_datasets hparams) w = (Ok loaders, w1) →
  select_pooling hparams w1 = (Ok None, w1)
  ∧ construct hparams args w
    = (Ok (<["learningRateSteps" :=
              VInt (Z.of_nat (num_sequences (fst loaders)))]> hparams,
           fst loaders, snd loaders),
       log_event (ESocialModel None) w1).
Proof.
  intros Hpm Hsocial Hoccupancy Hprefix.
  assert (Hsel : ∀ w0 : world, select_pooling hparams w0 = (Ok None, w0)).
  { intros w0. unfold select_pooling.
    rewrite (bind_ok _ _ _ _ _ (getattr_found _ _ _ _ Hpm)). simpl.
    apply String.eqb_neq in Hsocial, Hoccupancy.
    by rewrite Hsocial, Hoccupancy. }
  split; [apply Hsel|].
  unfold construct. unfold bind in Hprefix |- *.
  destruct (logger hparams args w) as [[[]|e] w0]; [|discriminate].
  destruct (load_datasets hparams w0) as [[l|e] w2]; [|discriminate].
  injection Hprefix as -> ->. by rewrite Hsel.
Qed.

Lemma unknown_pooling_name_means_no_pooling_witness :
  select_pooling unknown_pooling_hparams
    (snd ((logger unknown_pooling_hparams sample_args
           >> load_datasets unknown_pooling_hparams) sample_world))
  = (Ok None,
     snd ((logger unknown_pooling_hparams sample_args
           >> load_datasets unknown_pooling_hparams) sample_world)).
Proof.
  apply (unknown_pooling_name_means_no_pooling unknown_pooling_hparams
           sample_args "attention" sample_world _
           (sample_train_loader, sample_val_loader)).
  - reflexivity.
  - discriminate.
  - discriminate.
  - vm_compute. reflexivity.
Defined.

(** ** Splits without windows *)

Lemma read_files_world (dp : string) (names : list value) (w : world) :
  snd (read_files dp names w) = w.
Proof.
  induction names as [|v rest IH]; simpl; [reflexivity|].
  destruct v as [| | |name|]; try reflexivity.
  unfold bind at 1. destruct (files w !! path_join dp name); [|reflexivity].
  unfold bind. destruct (read_files dp rest w) as [[others|e] w1]; exact IH.
Qed.

Lemma read_datasets_world (dp ds : value) (w : world) :
  snd (read_datasets dp ds w) = w.
Proof.
  unfold read_datasets. destruct dp; try reflexivity.
  destruct ds; try reflexivity. apply read_files_world.
Qed.

(** The script on a training split without windows, and on a validation
    split without windows. In the first run the loader warns, and the
    script goes through both epochs with no training step and saves the
    checkpoints and the final model as after any training. In the second
    run the first epoch ends with [ZeroDivisionError]. *)
Lemma empty_split_is_not_reported :
  (fst (main [empty_train_hparams] sample_args sample_world) = Ok tt
   ∧ trace (snd (main [empty_train_hparams] sample_args sample_world))
     = [ERemoveHandlers; EStreamHandler; ESetLevel "INFO";
        EDataLoader (VList [VStr "short.txt"]) (VInt 1) (VInt 2) (VInt 3);
        EEmptyDatasetWarning;
        EDataLoader (VList [VStr "b.txt"]) (VInt 1) (VInt 2) (VInt 3);
        ETrajectoriesDataset (VInt 1); EPooling SocialPooling;
        ESocialModel (Some SocialPooling);
        EMakedirs "models/exp"; EMakedirs "models/exp/checkpoints";
        ESaver; EInitVariables;
        EInit Train; EInit Val; EEvalStep sample_val_window;
        ESave "models/exp/checkpoints/exp" (Some 1);
        EInit Train; EInit Val; EEvalStep sample_val_window;
        ESave "models/exp/checkpoints/exp" (Some 2);
        ESave "models/exp/exp" None; EResetGraph])
  ∧ fst (main [empty_val_hparams] sample_args sample_world)
    = Raise ZeroDivisionError.
Proof. vm_compute. repeat split. Qed.

(** C2 (as the script has it). A split that produces zero windows still
    gives a loader, and the loader raises [EmptyDatasetWarning]. The
    script does nothing with the warning: with a training split without
    windows and a validation split with windows, an epoch resets the
    training handle, makes no training step, validates on every window of
    the validation split and goes on to the checkpoint as in any epoch. *)
Theorem empty_split_warns_and_epoch_goes_on
    (dp ds dl sk mx ts : value) (sk' mx' ts' : nat)
    (logs : list (list Frame)) (w : world)
    (tl vl : loader) (locals : save_locals) (epoch : Z) (w2 : world) :
  as_positive sk = Some sk' →
  as_positive mx = Some mx' →
  as_positive ts = Some ts' →
  fst (read_datasets dp ds (log_event (EDataLoader ds sk mx ts) w)) = Ok logs →
  windows_of 0 logs ts' mx' sk' = [] →
  wired w2 tl vl →
  windows tl = [] →
  windows vl ≠ [] →
  DataLoader dp ds dl sk mx ts w
  = (Ok {| windows := [] |},
     log_event EEmptyDatasetWarning (log_event (EDataLoader ds sk mx ts) w))
  ∧ train_phase tl w2 = (Ok tt, after_phase Train ETrainStep [] w2)
  ∧ trace (after_phase Train ETrainStep [] w2) = (trace w2 ++ [EInit Train])%list
  ∧ run_epoch tl vl locals epoch w2
    = save_checkpoint locals epoch
        (after_phase Val EEvalStep (windows vl)
           (after_phase Train ETrainStep [] w2)).
Proof.
  intros Hsk Hmx Hts Hread Hnone Hw Htl Hvl. repeat split.
  - unfold DataLoader. unfold bind at 1, emit at 1.
    rewrite Hsk, Hmx, Hts. unfold bind at 1.
    pose proof (read_datasets_world dp ds
                  (log_event (EDataLoader ds sk mx ts) w)) as Hworld.
    destruct (read_datasets dp ds (log_event (EDataLoader ds sk mx ts) w))
      as [r w1]. simpl in Hread, Hworld. subst r w1.
    by rewrite Hnone.
  - rewrite <- Htl. by apply (train_phase_run tl vl).
  - rewrite (run_epoch_run tl vl locals epoch w2 Hw). cbv zeta.
    rewrite Htl. by destruct (windows vl).
Qed.

Lemma empty_split_warns_and_epoch_goes_on_witness :
  DataLoader (VStr "data") (VList [VStr "short.txt"]) (VStr "tab")
    (VInt 1) (VInt 2) (VInt 3) sample_world
  = (Ok {| windows := [] |},
     log_event EEmptyDatasetWarning
       (log_event (EDataLoader (VList [VStr "short.txt"])
                     (VInt 1) (VInt 2) (VInt 3)) sample_world))
  ∧ train_phase {| windows := [] |}
      (snd (TrajectoriesDataset {| windows := [] |} sample_val_loader
              (VInt 1) sample_world))
    = (Ok tt,
       after_phase Train ETrainStep []
         (snd (TrajectoriesDataset {| windows := [] |} sample_val_loader
                 (VInt 1) sample_world))).
Proof.
  destruct (empty_split_warns_and_epoch_goes_on
              (VStr "data") (VList [VStr "short.txt"]) (VStr "tab")
              (VInt 1) (VInt 2) (VInt 3) 1%nat 2%nat 3%nat
              [[sample_frame 0 [5]; sample_frame 10 [5]]] sample_world
              {| windows := [] |} sample_val_loader no_save_locals 0
              (snd (TrajectoriesDataset {| windows := [] |} sample_val_loader
                      (VInt 1) sample_world)))
    as (H1 & H2 & _).
  - reflexivity.
  - reflexivity.
  - reflexivity.
  - vm_compute. reflexivity.
  - vm_compute. reflexivity.
  - split; reflexivity.
  - reflexivity.
  - discriminate.
  - split; [exact H1 | exact H2].
Defined.

(** ** Construction *)

Lemma load_datasets_wired (hparams : gmap string value) (w w' : world)
    (tl vl : loader) :
  load_datasets hparams w = (Ok (tl, vl), w') → wired w' tl vl.
Proof.
  unfold load_datasets. intros H.
  apply bind_inv_ok in H as (o & w1 & _ & H).
  apply bind_inv_ok in H as (p & w2 & _ & H).
  apply bind_inv_ok in H as (ts & w3 & _ & H).
  apply bind_inv_ok in H as (tl' & w4 & _ & H).
  apply bind_inv_ok in H as (vl' & w5 & _ & H).
  apply bind_inv_ok in H as (pf & w6 & _ & H).
  apply bind_inv_ok in H as ([] & w7 & Hds & H).
  injection H as <- <- <-. injection Hds as <-. by split.
Qed.

Lemma new_CombinedPooling_same_pipe modules :
  preserves same_pipe (new_CombinedPooling modules).
Proof. unfold new_CombinedPooling. preserve. Qed.

Lemma select_pooling_same_pipe hparams :
  preserves same_pipe (select_pooling hparams).
Proof.
  unfold select_pooling.
  apply preserves_bind; [rel_side | preserve | intros v].
  destruct v; preserve; apply new_CombinedPooling_same_pipe.
Qed.

Lemma construct_inv (hparams hparams' : gmap string value) (args : Args)
    (w w1 : world) (tl vl : loader) :
  construct hparams args w = (Ok (hparams', tl, vl), w1) →
  hparams'
  = <["learningRateSteps" := VInt (Z.of_nat (num_sequences tl))]> hparams
  ∧ wired w1 tl vl.
Proof.
  unfold construct. intros H.
  apply bind_inv_ok in H as ([] & wa & _ & H).
  apply bind_inv_ok in H as ([tl' vl'] & wb & Hload & H).
  apply bind_inv_ok in H as (pm & wc & Hsel & H).
  apply bind_inv_ok in H as ([] & wd & Hemit & H).
  injection H as <- <- <- <-. injection Hemit as <-.
  split; [reflexivity|]. apply load_datasets_wired in Hload.
  pose proof (preserves_run same_pipe _ _ _ _
                (select_pooling_same_pipe hparams) Hsel) as Hpipe.
  destruct Hload as [Ht Hv]. unfold same_pipe in Hpipe.
  split; simpl; by rewrite Hpipe.
Qed.

(** ** Saving without a model folder *)

Lemma setup_saving_without_folder (hparams : gmap string value) (mf : value)
    (locals : save_locals) (w : world) :
  hparams !! "modelFolder" = Some mf →
  truthy mf = false →
  setup_saving hparams locals w = (Ok locals, w).
Proof.
  intros Hmf Hfalsy. unfold setup_saving.
  rewrite (bind_ok _ _ _ _ _ (getattr_found _ _ _ _ Hmf)).
  by rewrite Hfalsy.
Qed.

Lemma save_checkpoint_unassigned (locals : save_locals) (epoch : Z)
    (w : world) :
  save_model locals = None →
  save_checkpoint locals epoch w = (Raise (UnboundLocalError "save_model"), w).
Proof. intros H. unfold save_checkpoint. by rewrite H. Qed.

(** With [save_model] unassigned the session never ends normally: what
    does not fail before reaches the guard of the final save. *)
Lemma training_without_locals_raises (hparams : gmap string value)
    (tl vl : loader) (locals : save_locals) (w : world) :
  save_model locals = None →
  ∃ e, fst (training hparams tl vl locals w) = Raise e.
Proof.
  intros Hnone. unfold training, bind, emit, getattr.
  destruct (hparams !! "epochs") as [v|]; simpl; [|eauto].
  unfold lift. destruct (py_range v) as [epochs|e]; [|eauto].
  destruct (for_each epochs _ _) as [[[]|e] w1]; simpl; [|eauto].
  unfold save_final. rewrite Hnone. simpl. eauto.
Qed.

Lemma experiment_unassigned_raises (hparams : gmap string value)
    (args : Args) (mf : value) (locals : save_locals) (w : world) :
  hparams !! "modelFolder" = Some mf →
  truthy mf = false →
  save_model locals = None →
  ∃ e, fst (experiment hparams args locals w) = Raise e.
Proof.
  intros Hmf Hfalsy Hnone. unfold experiment, bind at 1.
  destruct (construct hparams args w) as [[[[hparams' tl] vl]|e] w1] eqn:Hc;
    [|eauto].
  apply construct_inv in Hc as [-> _].
  unfold bind at 1.
  rewrite (setup_saving_without_folder _ mf); [|by rewrite lookup_insert_ne|done].
  unfold bind at 1.
  destruct (training_without_locals_raises
              (<["learningRateSteps" := VInt (Z.of_nat (num_sequences tl))]>
                 hparams) tl vl locals w1 Hnone) as [e He].
  destruct (training _ tl vl locals w1) as [[[]|e'] w2];
    simpl in He; [discriminate | eauto].
Qed.

(** Four runs of the script. After an experiment with a model folder,
    an experiment without one finds [save_model], [saver] and the paths
    as the first left them: its set-up changes nothing, the guard of the
    checkpoint finds [save_model] assigned and the run does not end with
    [UnboundLocalError]. Alone and with [epochs = 0], the
    experiment without a model folder raises the error at the guard of
    the final save, no epoch and no validation phase having run. Alone and
    with a validation split without windows, it ends with
    [ZeroDivisionError] before any guard is evaluated. Alone and with no
    attribute [modelFolder] at all, it ends with [AttributeError] at the
    test of the model folder. *)
Lemma unbound_save_model_depends_on_the_run :
  (fst (main [sample_hparams; no_folder_hparams] sample_args sample_world)
   ≠ Raise (UnboundLocalError "save_model")
   ∧ fst (experiments_loop [sample_hparams] sample_args no_save_locals
            sample_world)
     = Ok sample_locals
   ∧ fst (setup_saving no_folder_hparams sample_locals sample_world)
     = Ok sample_locals)
  ∧ (fst (main [<["epochs" := VInt 0]> no_folder_hparams] sample_args
            sample_world)
     = Raise (UnboundLocalError "save_model")
     ∧ trace (snd (main [<["epochs" := VInt 0]> no_folder_hparams]
                     sample_args sample_world))
       = [ERemoveHandlers; EStreamHandler; ESetLevel "INFO";
          EDataLoader (VList [VStr "a.txt"]) (VInt 1) (VInt 2) (VInt 3);
          EDataLoader (VList [VStr "b.txt"]) (VInt 1) (VInt 2) (VInt 3);
          ETrajectoriesDataset (VInt 1); EPooling SocialPooling;
          ESocialModel (Some SocialPooling); EInitVariables])
  ∧ fst (main [<["validationDatasets" := VList [VStr "short.txt"]]>
                 no_folder_hparams] sample_args sample_world)
    = Raise ZeroDivisionError
  ∧ fst (main [delete "modelFolder" sample_hparams] sample_args sample_world)
    = Raise (AttributeError "modelFolder").
Proof. vm_compute. repeat split. discriminate. Qed.

(** C8 (as the script has it). For an experiment whose
    [hparams.modelFolder] is falsy and that is entered with [save_model]
    still unassigned -- as the first experiment of a run is -- the set-up
    assigns nothing, evaluating the guard of the checkpoint raises
    [UnboundLocalError] for [save_model], and the experiment, hence the
    run, never ends normally. When the first epoch gets through its
    validation phase (at least one epoch, at least one validation
    sequence), that guard is reached at the end of the first epoch: the
    run ends with the exception right after the training and validation
    steps of the first epoch, instead of skipping the save. *)
Theorem missing_model_folder_ends_the_first_epoch
    (hparams : gmap string value) (args : Args) (mf : value)
    (locals : save_locals) (w : world) :
  hparams !! "modelFolder" = Some mf →
  truthy mf = false →
  save_model locals = None →
  (∃ e, fst (experiment hparams args locals w) = Raise e)
  ∧ (∀ rest, ∃ e, fst (main (hparams :: rest) args w) = Raise e)
  ∧ (∀ epoch w0,
        save_checkpoint locals epoch w0
        = (Raise (UnboundLocalError "save_model"), w0))
  ∧ ∀ hparams' tl vl w1,
      construct hparams args w = (Ok (hparams', tl, vl), w1) →
      setup_saving hparams' locals w1 = (Ok locals, w1)
      ∧ ∀ n, hparams !! "epochs" = Some (VInt n) →
             0 < n →
             windows vl ≠ [] →
             experiment hparams args locals w
             = (Raise (UnboundLocalError "save_model"),
                after_phase Val EEvalStep (windows vl)
                  (after_phase Train ETrainStep (windows tl)
                     (log_event EInitVariables w1))).
Proof.
  intros Hmf Hfalsy Hnone.
  assert (Hsetup : ∀ hparams' tl vl w1,
             construct hparams args w = (Ok (hparams', tl, vl), w1) →
             setup_saving hparams' locals w1 = (Ok locals, w1)
             ∧ wired w1 tl vl
             ∧ ∀ v, hparams !! "epochs" = Some v →
                    hparams' !! "epochs" = Some v).
  { intros hparams' tl vl w1 Hc.
    apply construct_inv in Hc as [-> Hw]. repeat split; try apply Hw.
    - apply (setup_saving_without_folder _ mf); [|exact Hfalsy].
      by rewrite lookup_insert_ne.
    - intros v Hv. by rewrite lookup_insert_ne. }
  split; [by apply (experiment_unassigned_raises _ _ mf)|].
  split; [|split; [intros epoch w0; by apply save_checkpoint_unassigned|]].
  - intros rest. unfold main. simpl. unfold bind.
    destruct (experiment_unassigned_raises hparams args mf no_save_locals w
                Hmf Hfalsy eq_refl) as [e He].
    destruct (experiment hparams args no_save_locals w) as [[l|e'] w2];
      simpl in He; [discriminate | eauto].
  - intros hparams' tl vl w1 Hc.
    destruct (Hsetup _ _ _ _ Hc) as (Hs & Hw & Hepochs).
    split; [exact Hs|]. intros n Hn Hpos Hvl.
    unfold experiment. rewrite (bind_ok _ _ _ _ _ Hc).
    rewrite (bind_ok _ _ _ _ _ Hs).
    apply bind_raise. unfold training.
    unfold bind at 1, emit at 1.
    rewrite (bind_ok _ _ _ _ _ (getattr_found _ _ _ _ (Hepochs _ Hn))).
    unfold bind at 1, lift at 1. simpl py_range. cbv iota beta.
    apply bind_raise.
    destruct (Z.to_nat n) as [|k] eqn:Hk; [lia|]. simpl.
    apply bind_raise.
    rewrite (run_epoch_run tl vl locals _
               (log_event EInitVariables w1) Hw). cbv zeta.
    rewrite save_checkpoint_unassigned by exact Hnone.
    by destruct (windows vl).
Qed.

Lemma missing_model_folder_ends_the_first_epoch_witness :
  experiment no_folder_hparams sample_args no_save_locals sample_world
  = (Raise (UnboundLocalError "save_model"),
     after_phase Val EEvalStep [sample_val_window]
       (after_phase Train ETrainStep [sample_window; sample_window_1]
          (log_event EInitVariables
             (snd (construct no_folder_hparams sample_args sample_world))))).
Proof.
  destruct (missing_model_folder_ends_the_first_epoch no_folder_hparams
              sample_args VNone no_save_locals sample_world
              eq_refl eq_refl eq_refl) as (_ & _ & _ & H).
  destruct (H (<["learningRateSteps" := VInt 2]> no_folder_hparams)
              sample_train_loader sample_val_loader
              (snd (construct no_folder_hparams sample_args sample_world)))
    as [_ H2].
  - vm_compute. reflexivity.
  - apply (H2 2); [reflexivity | lia | discriminate].
Defined.

(** ** The level of the logger *)

Lemma choose_level_without_option (hparams : gmap string value) (args : Args)
    (w : world) :
  logLevel args = None →
  choose_level hparams args w
  = match hparams !! "logLeve" with
    | None => (Raise (AttributeError "logLeve"), w)
    | Some VNone => (Ok "INFO", w)
    | Some _ =>
        match hparams !! "logLevel" with
        | None => (Raise (AttributeError "logLevel"), w)
        | Some l => (py_upper l, w)
        end
    end.
Proof.
  intros Hargs. unfold choose_level. rewrite Hargs.
  unfold bind, getattr.
  destruct (hparams !! "logLeve") as [v|]; [|reflexivity].
  destruct v as [|b|n|s|vs]; simpl; try reflexivity;
    destruct (hparams !! "logLevel") as [l|]; simpl; try reflexivity;
    unfold lift; by destruct (py_upper l).
Qed.

Lemma place_log_file_trace (log_folder log_file : value) (w : world) :
  trace (snd (place_log_file log_folder log_file w)) = trace w
  ∨ ∃ p, trace (snd (place_log_file log_folder log_file w))
         = (trace w ++ [EMakedirs p])%list.
Proof.
  unfold place_log_file.
  destruct (is_not_none log_folder); [|by left].
  destruct log_folder; try by left.
  destruct log_file; try by left.
  unfold bind, os_path_exists, os_makedirs.
  destruct (is_dir _ w); simpl; [by left|].
  destruct (String.eqb _ ""); simpl; [by left|].
  destruct (bool_decide _); simpl; [by left | right; eauto].
Qed.

Lemma choose_log_folder_world (hparams : gmap string value) (args : Args)
    (w : world) :
  snd (choose_log_folder hparams args w) = w.
Proof.
  unfold choose_log_folder. destruct (logFolder args); [reflexivity|].
  unfold bind, getattr.
  destruct (hparams !! "logFolder") as [v|]; [|reflexivity].
  simpl. by destruct (is_not_none v).
Qed.

(** C9. When the command line gives no [--logLevel], the logger decides
    on the attribute [logLeve] of the parameters whether the level of the
    parameter file applies. Parameters that define [logLevel] but not
    [logLeve] never have their level applied: the access to [logLeve]
    fails, the logger ends with an exception and sets no level. *)
Theorem logger_reads_misspelled_logLeve
    (hparams : gmap string value) (args : Args) (w : world) :
  logLevel args = None →
  choose_level hparams args w
  = match hparams !! "logLeve" with
    | None => (Raise (AttributeError "logLeve"), w)
    | Some VNone => (Ok "INFO", w)
    | Some _ =>
        match hparams !! "logLevel" with
        | None => (Raise (AttributeError "logLevel"), w)
        | Some l => (py_upper l, w)
        end
    end
  ∧ (hparams !! "logLeve" = None →
     (∃ e, fst (logger hparams args w) = Raise e)
     ∧ (∀ level, ESetLevel level ∈ trace (snd (logger hparams args w)) →
                 ESetLevel level ∈ trace w)
     ∧ ∀ name, hparams !! "name" = Some (VStr name) →
               logFolder args = None →
               hparams !! "logFolder" = Some VNone →
               logger hparams args w = (Raise (AttributeError "logLeve"), w)).
Proof.
  intros Hargs. split; [by apply choose_level_without_option|].
  intros Hmissing.
  assert (Hlevel : ∀ w0, choose_level hparams args w0
                         = (Raise (AttributeError "logLeve"), w0)).
  { intros w0. rewrite choose_level_without_option by exact Hargs.
    by rewrite Hmissing. }
  assert (Hrun : ∃ e w', logger hparams args w = (Raise e, w')
                          ∧ (trace w' = trace w
                             ∨ ∃ p, trace w' = (trace w ++ [EMakedirs p])%list)).
  { unfold logger, bind, getattr.
    destruct (hparams !! "name") as [name|]; simpl; [|eauto 6].
    unfold lift.
    destruct (py_add name (VStr "-train.log")) as [log_file|e]; [|eauto 6].
    pose proof (choose_log_folder_world hparams args w) as Hworld.
    destruct (choose_log_folder hparams args w) as [[log_folder|e] w1];
      simpl in Hworld; subst w1; [|eauto 6].
    pose proof (place_log_file_trace log_folder log_file w) as Htrace.
    destruct (place_log_file log_folder log_file w) as [[file|e] w1];
      simpl in Htrace; [|eauto 6].
    rewrite Hlevel. eauto 6. }
  destruct Hrun as (e & w' & Hrun & Htrace). repeat split.
  - rewrite Hrun. eauto.
  - rewrite Hrun. simpl. intros level.
    destruct Htrace as [->|[p ->]]; [done|].
    rewrite elem_of_app, list_elem_of_singleton.
    intros [?|?]; [done|discriminate].
  - intros name Hname Hfolder Hnone. unfold logger.
    rewrite (bind_ok _ _ _ _ _ (getattr_found _ _ _ _ Hname)).
    unfold bind at 1, lift at 1. simpl py_add. cbv iota beta.
    unfold choose_log_folder. rewrite Hfolder.
    unfold bind, getattr. rewrite Hnone. simpl. by rewrite Hlevel.
Qed.

Lemma logger_reads_misspelled_logLeve_witness :
  sample_hparams !! "logLevel" = Some (VStr "debug")
  ∧ logger sample_hparams bare_args sample_world
    = (Raise (AttributeError "logLeve"), sample_world).
Proof.
  split; [reflexivity|].
  destruct (logger_reads_misspelled_logLeve sample_hparams bare_args
              sample_world eq_refl) as [_ H].
  destruct (H eq_refl) as (_ & _ & Hrun).
  apply (Hrun "exp"); reflexivity.
Defined.

(** ** The checkpoints folder *)








Lemma run_epoch_saving (tl vl : loader) (locals : save_locals) (epoch : Z)
    (w : world) :
  wired w tl vl →
  windows vl ≠ [] →
  run_epoch tl vl locals epoch w
  = save_checkpoint locals epoch
      (after_phase Val EEvalStep (windows vl)
         (after_phase Train ETrainStep (windows tl) w)).
Proof.
  intros Hw Hvl. rewrite (run_epoch_run tl vl locals epoch w Hw). cbv zeta.
  by destruct (windows vl).
Qed.

Lemma resets_app (a b : list event) :
  resets (a ++ b) = (resets a + resets b)%nat.
Proof.
  induction a as [|e a IH]; [reflexivity|].
  destruct e; simpl; by rewrite ?IH.
Qed.

Lemma graph_of_log_event (e : event) (w : world) :
  e ≠ EResetGraph → graph_of (log_event e w) = graph_of w.
Proof.
  intros He. unfold graph_of. simpl. rewrite resets_app.
  destruct e; simpl; try lia. by destruct He.
Qed.


Lemma graph_of_after_phase (s : split) (mk : Window → event)
    (ws : list Window) (w : world) :
  (∀ win, mk win ≠ EResetGraph) →
  graph_of (after_phase s mk ws w) = graph_of w.
Proof.
  intros Hmk. unfold graph_of. simpl. rewrite resets_app.
  assert (resets (map mk ws) = 0%nat) as Hsteps.
  { induction ws as [|win ws IH]; [reflexivity|]. simpl.
    specialize (Hmk win). by destruct (mk win). }
  simpl. rewrite Hsteps. lia.
Qed.

Lemma graph_of_after_epoch (tl vl : loader) (w : world) :
  graph_of (after_phase Val EEvalStep (windows vl)
              (after_phase Train ETrainStep (windows tl) w))
  = graph_of w.
Proof. by rewrite !graph_of_after_phase. Qed.

Lemma exists_new (p : string) (w : world) :
  p ∉ fs w → os_path_exists p w = (Ok false, w).
Proof.
  intros H. unfold os_path_exists, is_dir.
  by rewrite bool_decide_eq_false_2, andb_false_r.
Qed.

Lemma exists_old (p : string) (w : world) :
  p ≠ "" → p ∈ fs w → os_path_exists p w = (Ok true, w).
Proof.
  intros Hne H. unfold os_path_exists, is_dir.
  apply String.eqb_neq in Hne. by rewrite Hne, bool_decide_eq_true_2.
Qed.

Lemma makedirs_new (p : string) (w : world) :
  p ≠ "" →
  p ∉ fs w →
  os_makedirs p w
  = (Ok tt,
     log_event (EMakedirs p)
       (set_fs (fs w ∪ {[p]} ∪ list_to_set (ancestors p)) w)).
Proof.
  intros Hne H. unfold os_makedirs.
  apply String.eqb_neq in Hne. by rewrite Hne, bool_decide_eq_false_2.
Qed.


Lemma path_join_nonempty (a b : string) : a ≠ "" → path_join a b ≠ "".
Proof.
  intros Hne. unfold path_join.
  destruct b as [|c b]; simpl.
  - destruct (String.eqb a "" || ends_with_sep a); by destruct a.
  - destruct (Ascii.eqb c sep); [done|].
    destruct (String.eqb a "" || ends_with_sep a); by destruct a.
Qed.











(** ** The worked example of the specification *)

(** Twenty contiguous frames with three agents present in all of them,
    [obsLen = 8], [predLen = 12], [skip = 1]: exactly one window, with
    the three agents and a mask that holds everywhere. *)
Example windower_worked_example :
  let frames := map (λ t, sample_frame (Z.of_nat t) [1; 2; 3]) (seq 0 20) in
  ∃ win, windower 0 frames (8 + 12) 5 1 = [win]
         ∧ wslots win = [1; 2; 3]
         ∧ wpresence win = replicate 20 [true; true; true].
Proof. eexists. vm_compute. repeat split. Qed.


(** * Further properties of the script *)

(** ** The logger *)

Lemma upper_ascii_idempotent (c : ascii) :
  upper_ascii (upper_ascii c) = upper_ascii c.
Proof. destruct c as [[] [] [] [] [] [] [] []]; reflexivity. Qed.

Lemma upper_idempotent (s : string) : upper (upper s) = upper s.
Proof.
  induction s as [|c s IH]; [reflexivity|].
  simpl. by rewrite upper_ascii_idempotent, IH.
Qed.

(** X1. With [--logLevel] on the command line the parameters are not
    consulted for the level: two parameter objects that differ only in
    [logLeve] and [logLevel] (present or not) give the same run of the
    logger, and a successful run ends by setting the level of the command
    line in upper case. *)
Theorem command_line_level_overrides_parameters
    (hparams hparams' : gmap string value) (args : Args) (l : string)
    (w : world) :
  logLevel args = Some l →
  (∀ k, k ≠ "logLeve" → k ≠ "logLevel" → hparams !! k = hparams' !! k) →
  logger hparams args w = logger hparams' args w
  ∧ ∀ w', logger hparams args w = (Ok tt, w') →
          last (trace w') = Some (ESetLevel (upper l)).
Proof.
  intros Hl Hagree. split.
  - unfold logger, choose_log_folder, choose_level, getattr.
    rewrite Hl, <- (Hagree "name"), <- (Hagree "logFolder") by discriminate.
    reflexivity.
  - intros w' Hrun. unfold logger in Hrun.
    apply bind_inv_ok in Hrun as (name & w1 & _ & Hrun).
    apply bind_inv_ok in Hrun as (file & w2 & _ & Hrun).
    apply bind_inv_ok in Hrun as (folder & w3 & _ & Hrun).
    apply bind_inv_ok in Hrun as (file' & w4 & _ & Hrun).
    apply bind_inv_ok in Hrun as (level & w5 & Hlevel & Hrun).
    unfold choose_level in Hlevel. rewrite Hl in Hlevel.
    injection Hlevel as <- <-.
    unfold install_handlers in Hrun.
    apply bind_inv_ok in Hrun as ([] & w6 & _ & Hrun).
    apply bind_inv_ok in Hrun as ([] & w7 & _ & Hrun).
    apply bind_inv_ok in Hrun as ([] & w8 & _ & Hrun).
    unfold set_level in Hrun.
    destruct (known_level (upper l)); [|discriminate].
    injection Hrun as <-. simpl. apply last_snoc.
Qed.

Lemma command_line_level_overrides_parameters_witness :
  logger sample_hparams sample_args sample_world
  = logger (<["logLeve" := VInt 3]> (delete "logLevel" sample_hparams))
      sample_args sample_world.
Proof.
  apply (command_line_level_overrides_parameters sample_hparams _
           sample_args "info" sample_world eq_refl).
  intros k H1 H2.
  by rewrite lookup_insert_ne, lookup_delete_ne.
Defined.

(** X2. With [--logFolder] on the command line the attribute [logFolder]
    of the parameters is not read: parameter objects that differ only in
    that attribute, or lack it, give the same run of the logger. *)
Theorem command_line_folder_overrides_parameters
    (hparams hparams' : gmap string value) (args : Args) (f : string)
    (w : world) :
  logFolder args = Some f →
  (∀ k, k ≠ "logFolder" → hparams !! k = hparams' !! k) →
  logger hparams args w = logger hparams' args w.
Proof.
  intros Hf Hagree.
  unfold logger, choose_log_folder, choose_level, getattr.
  rewrite Hf, <- (Hagree "name"), <- (Hagree "logLeve"),
    <- (Hagree "logLevel") by discriminate.
  reflexivity.
Qed.

Lemma command_line_folder_overrides_parameters_witness :
  logger sample_hparams full_args sample_world
  = logger (delete "logFolder" sample_hparams) full_args sample_world.
Proof.
  apply (command_line_folder_overrides_parameters sample_hparams _
           full_args "logs/run" sample_world eq_refl).
  intros k H. by rewrite lookup_delete_ne.
Defined.

(** X3. The level of the command line is taken without regard to case:
    the logger runs the same for a level and for its upper-case form. *)
Theorem command_line_level_ignores_case
    (hparams : gmap string value) (args : Args) (l : string) (w : world) :
  logger hparams (with_level l args) w
  = logger hparams (with_level (upper l) args) w.
Proof.
  unfold logger, choose_log_folder, choose_level, with_level. simpl.
  by rewrite upper_idempotent.
Qed.



Lemma choose_level_world (hparams : gmap string value) (args : Args)
    (w : world) :
  snd (choose_level hparams args w) = w.
Proof.
  unfold choose_level. destruct (logLevel args); [reflexivity|].
  unfold bind, getattr.
  destruct (hparams !! "logLeve") as [v|]; [|reflexivity].
  simpl. destruct (is_not_none v); [|reflexivity].
  destruct (hparams !! "logLevel") as [v'|]; [|reflexivity].
  simpl. unfold lift. by destruct (py_upper v').
Qed.

(** X5. When neither the command line nor the parameters give a log
    folder, the logger touches no directory and installs no file handler,
    whether it succeeds or fails. It ends in one of three ways: it fails
    before any call is made; or it replaces the handlers by the stream
    handler and then fails with [ValueError], the level not being one the
    logging module knows; or it succeeds with the three calls that put the
    stream handler in place and set a known level. *)
Theorem logger_without_folder_only_uses_stderr
    (hparams : gmap string value) (args : Args) (w : world) :
  logFolder args = None →
  hparams !! "logFolder" = Some VNone →
  fs (snd (logger hparams args w)) = fs w
  ∧ ((∃ e, fst (logger hparams args w) = Raise e)
       ∧ trace (snd (logger hparams args w)) = trace w
     ∨ (∃ level,
         choose_level hparams args w = (Ok level, w)
         ∧ known_level level = false)
       ∧ fst (logger hparams args w) = Raise ValueError
       ∧ trace (snd (logger hparams args w))
         = (trace w ++ [ERemoveHandlers; EStreamHandler])%list
     ∨ ∃ level,
         known_level level = true
         ∧ fst (logger hparams args w) = Ok tt
         ∧ trace (snd (logger hparams args w))
           = (trace w ++ [ERemoveHandlers; EStreamHandler; ESetLevel level])%list).
Proof.
  intros Hf Hnone.
  assert (H : ∃ r w', logger hparams args w = (r, w')
                      ∧ fs w' = fs w
                      ∧ ((∃ e, r = Raise e) ∧ trace w' = trace w
                         ∨ (∃ level,
                             choose_level hparams args w = (Ok level, w)
                             ∧ known_level level = false)
                           ∧ r = Raise ValueError
                           ∧ trace w'
                             = (trace w ++ [ERemoveHandlers; EStreamHandler])%list
                         ∨ ∃ level,
                             known_level level = true
                             ∧ r = Ok tt
                             ∧ trace w'
                               = (trace w ++ [ERemoveHandlers; EStreamHandler;
                                              ESetLevel level])%list)).
  { unfold logger, bind, getattr.
    destruct (hparams !! "name") as [name|]; simpl; [|eauto 10].
    unfold lift.
    destruct (py_add name (VStr "-train.log")) as [file|e]; [|eauto 10].
    unfold choose_log_folder. rewrite Hf. unfold bind, getattr.
    rewrite Hnone. simpl.
    pose proof (choose_level_world hparams args w) as Hworld.
    destruct (choose_level hparams args w) as [[level|e] w1];
      simpl in Hworld; subst w1; [|eauto 10].
    unfold install_handlers, set_level, bind, emit, raise. simpl.
    destruct (known_level level) eqn:Hknown.
    - do 2 eexists. split; [reflexivity|]. split; [reflexivity|].
      right. right. exists level. split; [exact Hknown|].
      split; [reflexivity|]. simpl. by rewrite <- ?app_assoc.
    - do 2 eexists. split; [reflexivity|]. split; [reflexivity|].
      right. left. split; [by exists level|].
      split; [reflexivity|]. simpl. by rewrite <- ?app_assoc. }
  destruct H as (r & w' & Hrun & Hfs & Htrace). rewrite Hrun. simpl.
  split; [exact Hfs|]. exact Htrace.
Qed.

Lemma logger_without_folder_only_uses_stderr_witness :
  fs (snd (logger sample_hparams sample_args sample_world)) = fs sample_world.
Proof.
  apply (logger_without_folder_only_uses_stderr sample_hparams sample_args
           sample_world eq_refl eq_refl).
Defined.

(** X6. An experiment whose parameter [name] is missing or is not a
    string fails at the first statement of the logger: [AttributeError]
    for a missing name, [TypeError] for a name that is not a string. Nothing
    has been done by then: no directory created, no handler installed, no
    dataset loaded. *)
Theorem experiment_needs_a_string_name
    (hparams : gmap string value) (args : Args) (locals : save_locals)
    (w : world) :
  (∀ s, hparams !! "name" ≠ Some (VStr s)) →
  ∃ e, experiment hparams args locals w = (Raise e, w)
       ∧ (e = AttributeError "name" ∨ e = TypeError)
       ∧ (e = AttributeError "name" ↔ hparams !! "name" = None).
Proof.
  intros Hname. unfold experiment, construct, logger, bind, getattr.
  destruct (hparams !! "name") as [v|]; simpl.
  - exists TypeError. unfold lift.
    destruct v as [|b|n|s|vs]; simpl;
      try (split; [reflexivity|]; split; [by right|]; split; discriminate).
    by destruct (Hname s).
  - exists (AttributeError "name"). split; [reflexivity|].
    split; [by left|]. by split.
Qed.

Lemma experiment_needs_a_string_name_witness :
  experiment (<["name" := VInt 42]> sample_hparams) sample_args
    no_save_locals sample_world
  = (Raise TypeError, sample_world).
Proof.
  destruct (experiment_needs_a_string_name
              (<["name" := VInt 42]> sample_hparams) sample_args
              no_save_locals sample_world)
    as (e & Hrun & [He|He] & Hiff).
  - intros s. rewrite lookup_insert_eq. discriminate.
  - apply Hiff in He. rewrite lookup_insert_eq in He. discriminate.
  - by rewrite He in Hrun.
Defined.

(** ** The session *)

Lemma parent_exists_fs (p : string) (w w' : world) :
  fs w' = fs w → parent_exists p w' = parent_exists p w.
Proof. intros H. unfold parent_exists. by rewrite H. Qed.

Lemma save_checkpoint_bound (mp cp : string) (g : nat) (epoch : Z)
    (w : world) :
  graph_of w = g →
  parent_exists cp w = true →
  save_checkpoint {| save_model := Some true; model_path := Some mp;
                     checkpoints_path := Some cp; saver := Some g |} epoch w
  = (Ok tt, log_event (ESave cp (Some (epoch + 1))) w).
Proof.
  intros Hg H. unfold save_checkpoint, bind, read_local, saver_save. simpl.
  by rewrite Hg, Nat.eqb_refl, H.
Qed.

Lemma epochs_run (tl vl : loader) (mp cp : string) (g : nat)
    (epochs : list Z) :
  ∀ w : world,
    wired w tl vl →
    windows vl ≠ [] →
    graph_of w = g →
    parent_exists cp w = true →
    ∃ w', for_each epochs
            (run_epoch tl vl
               {| save_model := Some true; model_path := Some mp;
                  checkpoints_path := Some cp; saver := Some g |}) w
          = (Ok tt, w')
          ∧ wired w' tl vl
          ∧ fs w' = fs w
          ∧ graph_of w' = g
          ∧ trace w'
            = (trace w ++ concat (map (epoch_events tl vl cp) epochs))%list.
Proof.
  induction epochs as [|epoch rest IH]; intros w Hw Hvl Hg Hcp; simpl.
  - exists w. by rewrite app_nil_r.
  - unfold bind. rewrite (run_epoch_saving tl vl _ epoch w Hw Hvl).
    rewrite save_checkpoint_bound;
      [|by rewrite graph_of_after_epoch
       |rewrite <- Hcp; by apply parent_exists_fs].
    destruct (IH (log_event (ESave cp (Some (epoch + 1)))
                    (after_phase Val EEvalStep (windows vl)
                       (after_phase Train ETrainStep (windows tl) w))))
      as (w' & Hrun & Hw' & Hfs & Hg' & Htrace).
    + destruct Hw as [Ht Hv]. by split.
    + exact Hvl.
    + by rewrite graph_of_log_event, graph_of_after_epoch.
    + rewrite <- Hcp. by apply parent_exists_fs.
    + exists w'. split; [exact Hrun|]. split; [exact Hw'|].
      split; [exact Hfs|]. split; [exact Hg'|].
      rewrite Htrace. unfold epoch_events at 2.
      simpl. rewrite <- !app_assoc. simpl.
      by rewrite <- !app_assoc.
Qed.

(** X7. A session succeeds when the local variables for saving are
    assigned, the saver is one of the graph at hand, the directories of
    [checkpoints_path] and of [model_path] exist, the pipeline is wired
    and the validation split has windows. For
    [epochs = n] it makes, after the initialisation of the variables, [n]
    epochs one after the other -- each resets the training handle, trains
    once on every training window in order, resets the validation handle,
    evaluates once on every validation window and saves a checkpoint with
    global step [epoch + 1] -- and then saves the final model once. It
    leaves the directories as they are. *)
Theorem session_runs_every_epoch
    (hparams : gmap string value) (tl vl : loader) (mp cp : string) (n : Z)
    (w : world) :
  hparams !! "epochs" = Some (VInt n) →
  wired w tl vl →
  windows vl ≠ [] →
  parent_exists cp w = true →
  parent_exists mp w = true →
  ∃ w', training hparams tl vl
          {| save_model := Some true; model_path := Some mp;
             checkpoints_path := Some cp; saver := Some (graph_of w) |} w
        = (Ok tt, w')
        ∧ fs w' = fs w
        ∧ trace w'
          = (trace w
             ++ EInitVariables
                :: concat (map (epoch_events tl vl cp)
                             (map Z.of_nat (seq 0 (Z.to_nat n))))
             ++ [ESave mp None])%list.
Proof.
  intros Hn Hw Hvl Hcp Hmp. unfold training.
  unfold bind at 1, emit at 1.
  rewrite (bind_ok _ _ _ _ _ (getattr_found _ _ _ _ Hn)).
  unfold bind at 1, lift at 1. simpl py_range. cbv beta iota.
  assert (Hinit : graph_of (log_event EInitVariables w) = graph_of w)
    by by apply graph_of_log_event.
  destruct (epochs_run tl vl mp cp (graph_of w)
              (map Z.of_nat (seq 0 (Z.to_nat n)))
              (log_event EInitVariables w) Hw Hvl Hinit Hcp)
    as (w1 & Hrun & _ & Hfs & Hg & Htrace).
  rewrite (bind_ok _ _ _ _ _ Hrun).
  unfold save_final, bind, read_local, saver_save. simpl.
  rewrite Hg, Nat.eqb_refl. cbv beta iota. unfold negb.
  rewrite (parent_exists_fs mp w w1 Hfs), Hmp.
  eexists. split; [reflexivity|]. simpl. split; [exact Hfs|].
  rewrite Htrace. simpl. rewrite <- !app_assoc. reflexivity.
Qed.

Lemma session_runs_every_epoch_witness :
  ∃ w', training sample_hparams sample_train_loader sample_val_loader
          sample_locals sample_prepared_world
        = (Ok tt, w')
        ∧ trace w'
          = [ETrajectoriesDataset (VInt 1);
             EMakedirs "models/exp"; EMakedirs "models/exp/checkpoints";
             ESaver; EInitVariables;
             EInit Train; ETrainStep sample_window;
             ETrainStep sample_window_1;
             EInit Val; EEvalStep sample_val_window;
             ESave "models/exp/checkpoints/exp" (Some 1);
             EInit Train; ETrainStep sample_window;
             ETrainStep sample_window_1;
             EInit Val; EEvalStep sample_val_window;
             ESave "models/exp/checkpoints/exp" (Some 2);
             ESave "models/exp/exp" None].
Proof.
  destruct (session_runs_every_epoch sample_hparams sample_train_loader
              sample_val_loader "models/exp/exp"
              "models/exp/checkpoints/exp" 2 sample_prepared_world)
    as (w' & Hrun & _ & Htrace).
  - reflexivity.
  - split; reflexivity.
  - discriminate.
  - by vm_compute.
  - by vm_compute.
  - exists w'. split; [exact Hrun | exact Htrace].
Defined.

(** X8. With [epochs] zero or negative and a configured model folder, the
    session runs no epoch and still saves the final model: the variables
    are initialised and saved as they are, whatever the loaders and the
    pipeline hold, the saver being one of the graph at hand and the
    directory of [model_path] being there. *)
Theorem session_without_epochs_saves_untrained_model
    (hparams : gmap string value) (tl vl : loader) (mp cp : string) (n : Z)
    (w : world) :
  hparams !! "epochs" = Some (VInt n) →
  n ≤ 0 →
  parent_exists mp w = true →
  training hparams tl vl
    {| save_model := Some true; model_path := Some mp;
       checkpoints_path := Some cp; saver := Some (graph_of w) |} w
  = (Ok tt, log_event (ESave mp None) (log_event EInitVariables w)).
Proof.
  intros Hn Hle Hmp. unfold training.
  unfold bind at 1, emit at 1.
  rewrite (bind_ok _ _ _ _ _ (getattr_found _ _ _ _ Hn)).
  unfold bind at 1, lift at 1. simpl py_range. cbv beta iota.
  replace (Z.to_nat n) with 0%nat by lia.
  unfold save_final, bind, read_local, saver_save. simpl.
  rewrite (graph_of_log_event EInitVariables w) by discriminate.
  rewrite Nat.eqb_refl. cbv beta iota. unfold negb.
  change (parent_exists mp (log_event EInitVariables w))
    with (parent_exists mp w).
  by rewrite Hmp.
Qed.

Lemma session_without_epochs_saves_untrained_model_witness :
  training (<["epochs" := VInt (-3)]> sample_hparams) sample_train_loader
    sample_val_loader sample_locals sample_prepared_world
  = (Ok tt,
     log_event (ESave "models/exp/exp" None)
       (log_event EInitVariables sample_prepared_world)).
Proof.
  apply (session_without_epochs_saves_untrained_model
           (<["epochs" := VInt (-3)]> sample_hparams) sample_train_loader
           sample_val_loader "models/exp/exp" "models/exp/checkpoints/exp"
           (-3) sample_prepared_world).
  - reflexivity.
  - lia.
  - by vm_compute.
Defined.

(** X9. With a validation split without windows and at least one epoch,
    the session always ends with [ZeroDivisionError], model folder or not:
    the first epoch trains on every training window, resets the
    validation handle and fails on the mean of the validation losses.
    No checkpoint and no model is saved. *)
Theorem session_with_empty_validation_fails_after_training
    (hparams : gmap string value) (tl vl : loader) (locals : save_locals)
    (n : Z) (w : world) :
  hparams !! "epochs" = Some (VInt n) →
  0 < n →
  wired w tl vl →
  windows vl = [] →
  ∃ w', training hparams tl vl locals w = (Raise ZeroDivisionError, w')
        ∧ trace w'
          = (trace w
             ++ EInitVariables :: EInit Train :: map ETrainStep (windows tl)
             ++ [EInit Val])%list.
Proof.
  intros Hn Hpos Hw Hvl. unfold training.
  unfold bind at 1, emit at 1.
  rewrite (bind_ok _ _ _ _ _ (getattr_found _ _ _ _ Hn)).
  unfold bind at 1, lift at 1. simpl py_range. cbv beta iota.
  destruct (Z.to_nat n) as [|k] eqn:Hk; [lia|]. simpl.
  eexists. split.
  - apply bind_raise. apply bind_raise.
    rewrite (run_epoch_run tl vl locals _ (log_event EInitVariables w) Hw).
    cbv zeta. rewrite Hvl. reflexivity.
  - simpl. rewrite <- !app_assoc. reflexivity.
Qed.

Lemma session_with_empty_validation_fails_after_training_witness :
  ∃ w', training sample_hparams sample_train_loader {| windows := [] |}
          sample_locals
          (snd (TrajectoriesDataset sample_train_loader {| windows := [] |}
                  (VInt 1) sample_world))
        = (Raise ZeroDivisionError, w')
        ∧ trace w'
          = [ETrajectoriesDataset (VInt 1); EInitVariables; EInit Train;
             ETrainStep sample_window; ETrainStep sample_window_1;
             EInit Val].
Proof.
  destruct (session_with_empty_validation_fails_after_training
              sample_hparams sample_train_loader {| windows := [] |}
              sample_locals 2
              (snd (TrajectoriesDataset sample_train_loader
                      {| windows := [] |} (VInt 1) sample_world)))
    as (w' & Hrun & Htrace).
  - reflexivity.
  - lia.
  - split; reflexivity.
  - reflexivity.
  - exists w'. split; [exact Hrun | exact Htrace].
Defined.

(** ** What a session saves *)

Lemma emits_refl (P : event → Prop) (w : world) : emits P w w.
Proof. exists []. by rewrite app_nil_r. Qed.

Lemma emits_trans (P : event → Prop) (w1 w2 w3 : world) :
  emits P w1 w2 → emits P w2 w3 → emits P w1 w3.
Proof.
  intros (e1 & H1 & F1) (e2 & H2 & F2). exists (e1 ++ e2)%list. split.
  - by rewrite H2, H1, app_assoc.
  - by apply Forall_app.
Qed.

Lemma emit_emits (P : event → Prop) (e : event) :
  P e → preserves (emits P) (emit e).
Proof. intros He w. exists [e]. split; [reflexivity | by constructor]. Qed.

Lemma init_handle_emits (P : event → Prop) (s : split) :
  P (EInit s) → preserves (emits P) (init_handle s).
Proof. intros He w. exists [EInit s]. split; [reflexivity | by constructor]. Qed.

Lemma next_window_emits (P : event → Prop) : preserves (emits P) next_window.
Proof.
  intros w. unfold next_window. cbv zeta.
  destruct (active (pipe w)) as [[]|]; [| |apply emits_refl];
    destruct (advance _) as [[?|?] ?];
    exists []; by rewrite app_nil_r.
Qed.

Lemma steps_emit (P : event → Prop) (mk : Window → event) (l : list nat) :
  (∀ win, P (mk win)) →
  preserves (emits P)
    (for_each l (λ _, let! win := next_window in emit (mk win))).
Proof.
  intros Hmk.
  apply preserves_for_each; [apply emits_refl | apply emits_trans | intros _].
  apply preserves_bind; [apply emits_trans | apply next_window_emits |].
  intros win. by apply emit_emits.
Qed.

Lemma save_checkpoint_emits (locals : save_locals) (epoch : Z) :
  preserves (emits (save_allowed locals)) (save_checkpoint locals epoch).
Proof.
  intros w. unfold save_checkpoint.
  destruct locals as [[[]|] mp [cp|] [sv|]]; simpl;
    try apply emits_refl.
  unfold bind, read_local, saver_save. simpl.
  destruct (negb _); [apply emits_refl|].
  destruct (parent_exists cp w); [|apply emits_refl].
  eexists [_]. split; [reflexivity|]. by repeat constructor.
Qed.

Lemma save_final_emits (locals : save_locals) :
  preserves (emits (save_allowed locals)) (save_final locals).
Proof.
  intros w. unfold save_final.
  destruct locals as [[[]|] [mp|] cp [sv|]]; simpl;
    try apply emits_refl.
  unfold bind, read_local, saver_save. simpl.
  destruct (negb _); [apply emits_refl|].
  destruct (parent_exists mp w); [|apply emits_refl].
  eexists [_]. split; [reflexivity|]. by repeat constructor.
Qed.

(** X10. Whatever the outcome of a session, the only save calls it makes
    are the ones the set-up of the model folder prepared: a checkpoint
    (with a global step) goes to [checkpoints_path], the final model
    (without one) to [model_path], and when [save_model] is unassigned
    nothing is saved at all. *)
Theorem session_saves_only_where_prepared
    (hparams : gmap string value) (tl vl : loader) (locals : save_locals)
    (w : world) :
  ∃ evs,
    trace (snd (training hparams tl vl locals w)) = (trace w ++ evs)%list
    ∧ Forall (save_allowed locals) evs
    ∧ (save_model locals = None → ∀ p g, ESave p g ∉ evs).
Proof.
  assert (H : preserves (emits (save_allowed locals))
                (training hparams tl vl locals)).
  { unfold training.
    apply preserves_bind; [apply emits_trans | by apply emit_emits |].
    intros _.
    apply preserves_bind;
      [apply emits_trans | apply preserves_getattr, emits_refl |].
    intros v.
    apply preserves_bind;
      [apply emits_trans | apply preserves_lift, emits_refl |].
    intros epochs.
    apply preserves_bind; [apply emits_trans | | intros _; apply save_final_emits].
    apply preserves_for_each; [apply emits_refl | apply emits_trans |].
    intros epoch. unfold run_epoch.
    apply preserves_bind; [apply emits_trans | |intros _].
    { unfold train_phase.
      apply preserves_bind;
        [apply emits_trans | by apply init_handle_emits | intros _].
      by apply steps_emit. }
    apply preserves_bind;
      [apply emits_trans | |intros _; apply save_checkpoint_emits].
    unfold val_phase.
    apply preserves_bind;
      [apply emits_trans | by apply init_handle_emits | intros _].
    apply preserves_bind; [apply emits_trans | by apply steps_emit |].
    intros _. destruct (_ =? _)%nat;
      [apply preserves_raise | apply preserves_ret]; apply emits_refl. }
  destruct (H w) as (evs & Htrace & Hall).
  exists evs. split; [exact Htrace|]. split; [exact Hall|].
  intros Hnone p g Hin.
  rewrite Forall_forall in Hall. specialize (Hall _ Hin).
  destruct g; simpl in Hall; destruct Hall as [Hsm _]; congruence.
Qed.

(** ** The model folder *)

Lemma setup_saving_start (hparams : gmap string value) (a b : string)
    (prev : save_locals) (w : world) :
  hparams !! "modelFolder" = Some (VStr a) →
  a ≠ "" →
  hparams !! "name" = Some (VStr b) →
  setup_saving hparams prev w
  = (let! found := os_path_exists (path_join a b) in
     (if negb found
      then os_makedirs (path_join a b) >>
           os_makedirs (path_join (path_join a b) "checkpoints")
      else ret tt) >>
     let! saver := new_saver in
     ret {| save_model := Some true;
            model_path := Some (path_join (path_join a b) b);
            checkpoints_path :=
              Some (path_join (path_join (path_join a b) "checkpoints") b);
            saver := Some saver |}) w.
Proof.
  intros Hmf Hne Hname. unfold setup_saving.
  rewrite (bind_ok _ _ _ _ _ (getattr_found _ _ _ _ Hmf)).
  assert (truthy (VStr a) = true) as ->.
  { simpl. apply String.eqb_neq in Hne. by rewrite Hne. }
  by rewrite (bind_ok _ _ _ _ _ (getattr_found _ _ _ _ Hname)).
Qed.

Lemma setup_saving_existing (hparams : gmap string value) (a b : string)
    (prev : save_locals) (w : world) :
  hparams !! "modelFolder" = Some (VStr a) →
  a ≠ "" →
  hparams !! "name" = Some (VStr b) →
  path_join a b ∈ fs w →
  setup_saving hparams prev w
  = (Ok {| save_model := Some true;
           model_path := Some (path_join (path_join a b) b);
           checkpoints_path :=
             Some (path_join (path_join (path_join a b) "checkpoints") b);
           saver := Some (graph_of w) |},
     log_event ESaver w).
Proof.
  intros Hmf Hne Hname Hin.
  rewrite (setup_saving_start hparams a b prev w Hmf Hne Hname).
  by rewrite (bind_ok _ _ _ _ _
                (exists_old _ _ (path_join_nonempty a b Hne) Hin)).
Qed.

Lemma truthy_string (v : value) (name : value) (mf : string) :
  truthy v = true →
  os_path_join v name = Ok mf →
  ∃ a b, v = VStr a ∧ a ≠ "" ∧ name = VStr b ∧ mf = path_join a b.
Proof.
  intros Ht Hj. destruct v as [| | |a|]; try discriminate.
  destruct name as [| | |b|]; try discriminate.
  injection Hj as <-. exists a, b. repeat split.
  simpl in Ht. apply negb_true_iff, String.eqb_neq in Ht. exact Ht.
Qed.

(** X11. Setting up the model folder a second time repeats the first
    outcome and creates nothing: once [setup_saving] has succeeded, a
    second run in the world it left, with the local variables it left,
    gives the same local variables, cannot fail on the folders that are
    now there, and leaves the directories as they are. *)
Theorem setup_saving_can_be_repeated
    (hparams : gmap string value) (prev locals : save_locals)
    (w w1 : world) :
  setup_saving hparams prev w = (Ok locals, w1) →
  fst (setup_saving hparams locals w1) = Ok locals
  ∧ fs (snd (setup_saving hparams locals w1)) = fs w1.
Proof.
  intros Hrun. pose proof Hrun as Hinv. unfold setup_saving in Hinv.
  apply bind_inv_ok in Hinv as (v & w2 & [Hmf ->]%getattr_inv & Hinv).
  destruct (truthy v) eqn:Ht.
  - apply bind_inv_ok in Hinv as (name & w2 & [Hname ->]%getattr_inv & Hinv).
    apply bind_inv_ok in Hinv as (mf & w2 & Hjoin & Hinv).
    unfold lift in Hjoin. injection Hjoin as Hjoin <-.
    destruct (truthy_string v name mf Ht Hjoin)
      as (a & b & -> & Hne & -> & ->).
    pose proof (path_join_nonempty a b Hne) as Hmfne.
    assert (Hin : path_join a b ∈ fs w1).
    { rewrite (setup_saving_start hparams a b prev w Hmf Hne Hname) in Hrun.
      destruct (decide (path_join a b ∈ fs w)) as [Hold|Hnew].
      - rewrite (bind_ok _ _ _ _ _ (exists_old _ _ Hmfne Hold)) in Hrun.
        by injection Hrun as _ <-.
      - rewrite (bind_ok _ _ _ _ _ (exists_new _ _ Hnew)) in Hrun.
        simpl negb in Hrun. cbv iota in Hrun.
        apply bind_inv_ok in Hrun as ([] & w3 & Hmk & Hrun).
        apply bind_inv_ok in Hmk as ([] & w4 & Hmk1 & Hmk2).
        rewrite (makedirs_new _ _ Hmfne Hnew) in Hmk1. injection Hmk1 as <-.
        unfold os_makedirs in Hmk2.
        destruct (String.eqb _ _); [discriminate|].
        destruct (bool_decide _); [discriminate|]. injection Hmk2 as <-.
        injection Hrun as _ <-. simpl. set_solver. }
    rewrite (setup_saving_existing hparams a b locals w1 Hmf Hne Hname Hin).
    split; [|reflexivity]. simpl.
    rewrite (setup_saving_start hparams a b prev w Hmf Hne Hname) in Hrun.
    apply bind_inv_ok in Hrun as (found & w3 & _ & Hrun).
    apply bind_inv_ok in Hrun as ([] & w4 & _ & Hrun).
    unfold bind, new_saver, ret in Hrun. injection Hrun as Hlocals Hworld.
    subst locals w1. by rewrite graph_of_log_event.
  - injection Hinv as <- <-.
    by rewrite (setup_saving_without_folder hparams v prev w Hmf Ht).
Qed.

Lemma setup_saving_can_be_repeated_witness :
  fst (setup_saving sample_hparams sample_locals
         (snd (setup_saving sample_hparams no_save_locals sample_world)))
  = Ok sample_locals.
Proof.
  apply (setup_saving_can_be_repeated sample_hparams no_save_locals
           sample_locals sample_world).
  vm_compute. reflexivity.
Defined.






(** ** The experiment and the list of experiments *)

(** X13. When the parameters have no [modelFolder] key at all, the
    experiment fails with [AttributeError] at the test of the model folder,
    after the loaders, the pipeline and the model have been built and
    before any session is started. *)
Theorem experiment_without_modelFolder_key
    (hparams hparams' : gmap string value) (args : Args) (tl vl : loader)
    (locals : save_locals) (w w1 : world) :
  hparams !! "modelFolder" = None →
  construct hparams args w = (Ok (hparams', tl, vl), w1) →
  experiment hparams args locals w
  = (Raise (AttributeError "modelFolder"), w1).
Proof.
  intros Hnone Hc. unfold experiment.
  rewrite (bind_ok _ _ _ _ _ Hc).
  apply construct_inv in Hc as [-> _].
  apply bind_raise. unfold setup_saving. apply bind_raise.
  apply getattr_missing. by rewrite lookup_insert_ne.
Qed.

Lemma experiment_without_modelFolder_key_witness :
  experiment (delete "modelFolder" sample_hparams) sample_args
    no_save_locals sample_world
  = (Raise (AttributeError "modelFolder"),
     snd (construct (delete "modelFolder" sample_hparams) sample_args
            sample_world)).
Proof.
  apply (experiment_without_modelFolder_key _
           (<["learningRateSteps" := VInt 2]>
              (delete "modelFolder" sample_hparams))
           sample_args sample_train_loader sample_val_loader no_save_locals).
  - reflexivity.
  - vm_compute. reflexivity.
Defined.

Lemma experiments_loop_app (l1 l2 : list (gmap string value)) (args : Args) :
  ∀ (locals : save_locals) (w : world),
    experiments_loop (l1 ++ l2) args locals w
    = (let! locals' := experiments_loop l1 args locals in
       experiments_loop l2 args locals') w.
Proof.
  induction l1 as [|x l1 IH]; intros locals w; simpl; [reflexivity|].
  unfold bind. destruct (experiment x args locals w) as [[locals'|e] w1];
    [|reflexivity].
  rewrite IH. reflexivity.
Qed.

(** X14. The experiments are run one after the other and nothing catches
    a failure: when the experiments of a list have all succeeded and the
    next one, entered with the local variables they left, raises an
    exception, [main] ends with that exception in the world the failed
    experiment left, and the experiments after it are not run. *)
Theorem main_stops_at_first_failure
    (done rest : list (gmap string value)) (hparams : gmap string value)
    (args : Args) (locals : save_locals) (w w1 w2 : world) (e : exn) :
  experiments_loop done args no_save_locals w = (Ok locals, w1) →
  experiment hparams args locals w1 = (Raise e, w2) →
  main (done ++ hparams :: rest) args w = (Raise e, w2).
Proof.
  intros Hdone Hfail. unfold main. apply bind_raise.
  rewrite experiments_loop_app, (bind_ok _ _ _ _ _ Hdone). simpl.
  by apply bind_raise.
Qed.

Lemma main_stops_at_first_failure_witness :
  main [sample_hparams; empty_val_hparams; sample_hparams] sample_args
    sample_world
  = (Raise ZeroDivisionError,
     snd (experiment empty_val_hparams sample_args sample_locals
            (snd (main [sample_hparams] sample_args sample_world)))).
Proof.
  apply (main_stops_at_first_failure [sample_hparams] [sample_hparams]
           empty_val_hparams sample_args sample_locals sample_world
           (snd (main [sample_hparams] sample_args sample_world))).
  - vm_compute. reflexivity.
  - vm_compute. reflexivity.
Defined.

(** X15. The window length is computed with the [+] of Python before any
    loader is built: when [obsLen + predLen] is a type error (an integer
    and a string, a missing value and a number), the datasets are not
    touched and the construction ends with [TypeError], the world being
    as before. *)
Theorem ill_typed_lengths_fail_before_loading
    (hparams : gmap string value) (o p : value) (w : world) :
  hparams !! "obsLen" = Some o →
  hparams !! "predLen" = Some p →
  py_add o p = Raise TypeError →
  load_datasets hparams w = (Raise TypeError, w).
Proof.
  intros Ho Hp Hadd. unfold load_datasets.
  rewrite (bind_ok _ _ _ _ _ (getattr_found _ _ _ _ Ho)).
  rewrite (bind_ok _ _ _ _ _ (getattr_found _ _ _ _ Hp)).
  apply bind_raise. unfold lift. by rewrite Hadd.
Qed.

Lemma ill_typed_lengths_fail_before_loading_witness :
  load_datasets (<["predLen" := VStr "12"]> sample_hparams) sample_world
  = (Raise TypeError, sample_world).
Proof.
  apply (ill_typed_lengths_fail_before_loading
           (<["predLen" := VStr "12"]> sample_hparams)
           (VInt 2) (VStr "12") sample_world); reflexivity.
Defined.

(** X16. The construction adds the hyperparameter [learningRateSteps],
    the number of sequences of the training loader (the validation loader
    plays no part), and leaves every other hyperparameter as it was.
    Stated for parameters that do not define [learningRateSteps]
    themselves. *)
Theorem construct_adds_learningRateSteps
    (hparams hparams' : gmap string value) (args : Args) (tl vl : loader)
    (w w1 : world) :
  hparams !! "learningRateSteps" = None →
  construct hparams args w = (Ok (hparams', tl, vl), w1) →
  hparams' !! "learningRateSteps"
  = Some (VInt (Z.of_nat (length (windows tl))))
  ∧ (∀ k, k ≠ "learningRateSteps" → hparams' !! k = hparams !! k)
  ∧ dom hparams' = dom hparams ∪ {["learningRateSteps"]}.
Proof.
  intros Hfresh Hc. apply construct_inv in Hc as [-> _]. repeat split.
  - by rewrite lookup_insert_eq.
  - intros k Hk. by rewrite lookup_insert_ne.
  - rewrite dom_insert_L. apply union_comm_L.
Qed.

Lemma construct_adds_learningRateSteps_witness :
  (<["learningRateSteps" := VInt 2]> sample_hparams) !! "learningRateSteps"
  = Some (VInt (Z.of_nat (length (windows sample_train_loader)))).
Proof.
  assert (Hrun : construct sample_hparams sample_args sample_world
                 = (Ok (<["learningRateSteps" := VInt 2]> sample_hparams,
                        sample_train_loader, sample_val_loader),
                    snd (construct sample_hparams sample_args sample_world))).
  { vm_compute. reflexivity. }
  exact (proj1 (construct_adds_learningRateSteps sample_hparams _
                  sample_args sample_train_loader sample_val_loader
                  sample_world _ eq_refl Hrun)).
Defined.
